(** * Kaspa genesis proof: the verification engine

    A shallow embedding of [verify_kaspa_genesis.py],
    [verification/store_rust.py] and [verification/store_checkpoint.py],
    and the properties of the header codec, the hashers, the store
    accessors, the chain walker and the verification driver. *)

From Stdlib Require Import ZArith List Lia.
From Stdlib.Strings Require Import Byte.
From Stdlib.Strings Require Import String.
From stdpp Require Import base decidable countable option list gmap.
Import ListNotations.

#[local] Open Scope Z_scope.

(** ** Python values *)

(** A Python [bytes] object. *)
Abbreviation bytes := (list byte).

#[global] Instance byte_eq_decision : EqDecision byte := Byte.byte_eq_dec.
#[global] Instance byte_countable : Countable byte :=
  inj_countable Byte.to_N Byte.of_N Byte.of_to_N.

(** The exceptions the modelled code can raise. *)
Inductive exn :=
| StructError      (* struct.error: wrong buffer size, value out of range *)
| AttributeError   (* attribute missing on a duck-typed object *)
| LoadError.       (* json / KeyError / ValueError while loading the sidecar *)

(** A Python call either returns a value or raises. *)
Inductive outcome (A : Type) :=
| Return (a : A)
| Raise (e : exn).
Arguments Return {A} a.
Arguments Raise {A} e.

Definition obind {A B} (m : outcome A) (f : A -> outcome B) : outcome B :=
  match m with
  | Return a => f a
  | Raise e => Raise e
  end.

Declare Scope py_scope.
Delimit Scope py_scope with py.
Notation "'do' x <- m ;; k" := (obind m (fun x => k))
  (at level 10, x name, m at level 99, k at level 200) : py_scope.
Notation "'do' ' p <- m ;; k" := (obind m (fun x => let 'p := x in k))
  (at level 10, p pattern, m at level 99, k at level 200) : py_scope.
#[local] Open Scope py_scope.

(** [data[a:b]] for [0 <= a <= b]: never raises, silently shortens the
    result when the range runs past the end of [data]. *)
Definition slice (data : bytes) (a b : nat) : bytes :=
  take (b - a) (drop a data).

(** ** The [struct] module *)

Definition byte_of_Z (v : Z) : byte :=
  match Byte.of_N (Z.to_N (v mod 256)) with
  | Some b => b
  | None => x00
  end.

Definition Z_of_byte (b : byte) : Z := Z.of_N (Byte.to_N b).

(** The [n] little-endian bytes of [v]. *)
Fixpoint le_bytes (n : nat) (v : Z) : bytes :=
  match n with
  | O => []
  | S k => byte_of_Z v :: le_bytes k (v / 256)
  end.

(** The unsigned little-endian value of a byte string. *)
Fixpoint le_value (bs : bytes) : Z :=
  match bs with
  | [] => 0
  | b :: rest => Z_of_byte b + 256 * le_value rest
  end.

(** The format characters used by the sources: [H] (u16), [I] (u32), [Q] (u64). *)
Inductive fmt := H | I | Q.

Definition fmt_size (f : fmt) : nat :=
  match f with H => 2%nat | I => 4%nat | Q => 8%nat end.

Definition fmt_fits (f : fmt) (v : Z) : bool :=
  (0 <=? v) && (v <? 2 ^ (8 * Z.of_nat (fmt_size f))).

(** [struct.pack("<" + fmts, *values)]: raises [struct.error] on a value
    outside the range of its format. *)
Fixpoint struct_pack (args : list (fmt * Z)) : outcome bytes :=
  match args with
  | [] => Return []
  | (f, v) :: rest =>
      if fmt_fits f v
      then (do tl <- struct_pack rest ;; Return (le_bytes (fmt_size f) v ++ tl))
      else Raise StructError
  end.

(** [struct.unpack("<" + f, buf)[0]]: raises [struct.error] unless [buf]
    has exactly the size of the format. *)
Definition struct_unpack (f : fmt) (buf : bytes) : outcome Z :=
  if (length buf =? fmt_size f)%nat then Return (le_value buf)
  else Raise StructError.

(** ** Duck-typed header objects *)

(** One element of a header's [parents] attribute. The two stores build
    it differently, and [header_hash] only understands the first shape. *)
Inductive parent_level :=
| ParentLevel (parentHashes : list bytes)
    (* an object with [.parentHashes], a list of objects with [.hash] *)
| HashList (hashes : list bytes).
    (* a plain Python list of [bytes] objects *)

(** ** store_rust.py: header data and the bincode decoder *)

Module HeaderData.
(** [class HeaderData] (the float attribute [difficulty], derived from
    [bits] and read by none of the functions below, is left out). *)
Record t := mk {
  hashMerkleRoot : bytes;
  acceptedIDMerkleRoot : bytes;
  utxoCommitment : bytes;
  pruningPoint : bytes;
  timeInMilliseconds : Z;
  bits : Z;
  nonce : Z;
  daaScore : Z;
  blueWork : bytes;
  blueScore : Z;
  version : Z;
  parents : list parent_level
}.

End HeaderData.

(** The inner [for _ in range(inner_len)] loop: slices are taken without
    any length check. Returns the hashes and the new [pos]. *)
Fixpoint read_inner_hashes (data : bytes) (pos : nat) (count : nat)
  : list bytes * nat :=
  match count with
  | O => ([], pos)
  | S k =>
      let inner_hash := slice data pos (pos + 32) in
      let '(rest, pos') := read_inner_hashes data (pos + 32) k in
      (inner_hash :: rest, pos')
  end.

(** The outer [for _ in range(parents_outer_len)] loop. *)
Fixpoint read_parents_by_level (data : bytes) (pos : nat) (count : nat)
  : outcome (list (list bytes) * nat) :=
  match count with
  | O => Return ([], pos)
  | S k =>
      do inner_len <- struct_unpack Q (slice data pos (pos + 8)) ;;
      let '(inner_hashes, pos1) :=
        read_inner_hashes data (pos + 8) (Z.to_nat inner_len) in
      do '(rest, pos2) <- read_parents_by_level data pos1 k ;;
      Return (inner_hashes :: rest, pos2)
  end.

(** The body of the [try] block of [deserialize_bincode_header]. *)
Definition parse_header_fields (data : bytes) : outcome HeaderData.t :=
  let pos := 0%nat in
  let hash_bytes := slice data pos (pos + 32) in
  let pos := (pos + 32)%nat in
  do version <- struct_unpack H (slice data pos (pos + 2)) ;;
  let pos := (pos + 2)%nat in
  do parents_outer_len <- struct_unpack Q (slice data pos (pos + 8)) ;;
  let pos := (pos + 8)%nat in
  do '(parents_by_level, pos) <-
    read_parents_by_level data pos (Z.to_nat parents_outer_len) ;;
  let hash_merkle_root := slice data pos (pos + 32) in
  let pos := (pos + 32)%nat in
  let accepted_id_merkle_root := slice data pos (pos + 32) in
  let pos := (pos + 32)%nat in
  let utxo_commitment := slice data pos (pos + 32) in
  let pos := (pos + 32)%nat in
  do timestamp <- struct_unpack Q (slice data pos (pos + 8)) ;;
  let pos := (pos + 8)%nat in
  do bits <- struct_unpack I (slice data pos (pos + 4)) ;;
  let pos := (pos + 4)%nat in
  do nonce <- struct_unpack Q (slice data pos (pos + 8)) ;;
  let pos := (pos + 8)%nat in
  do daa_score <- struct_unpack Q (slice data pos (pos + 8)) ;;
  let pos := (pos + 8)%nat in
  let blue_work := slice data pos (pos + 24) in
  let pos := (pos + 24)%nat in
  do blue_score <- struct_unpack Q (slice data pos (pos + 8)) ;;
  let pos := (pos + 8)%nat in
  let pruning_point := slice data pos (pos + 32) in
  Return {|
    HeaderData.hashMerkleRoot := hash_merkle_root;
    HeaderData.acceptedIDMerkleRoot := accepted_id_merkle_root;
    HeaderData.utxoCommitment := utxo_commitment;
    HeaderData.pruningPoint := pruning_point;
    HeaderData.timeInMilliseconds := timestamp;
    HeaderData.bits := bits;
    HeaderData.nonce := nonce;
    HeaderData.daaScore := daa_score;
    HeaderData.blueWork := blue_work;
    HeaderData.blueScore := blue_score;
    HeaderData.version := version;
    HeaderData.parents := map HashList parents_by_level
  |}.

(** The three ways [deserialize_bincode_header] exits. *)
Inductive decode_exit :=
| GuardRejected                  (* the length guard: [return None], nothing parsed *)
| ParseFailed (e : exn)          (* [except Exception]: prints, [return None] *)
| Parsed (h : HeaderData.t).     (* [return HeaderData(header_dict)] *)

(** [data] is [None] or a [bytes] object. *)
Definition deserialize_bincode_header_exit (data : option bytes) : decode_exit :=
  match data with
  | None => GuardRejected
  | Some data =>
      if bool_decide (data = []) || (length data <? 100)%nat then GuardRejected
      else
        match parse_header_fields data with
        | Return h => Parsed h
        | Raise e => ParseFailed e
        end
  end.

(** The value returned to the caller. *)
Definition decode_value (x : decode_exit) : option HeaderData.t :=
  match x with
  | Parsed h => Some h
  | GuardRejected | ParseFailed _ => None
  end.

Definition deserialize_bincode_header (data : option bytes) : option HeaderData.t :=
  decode_value (deserialize_bincode_header_exit data).

(** The object handed to [header_hash] and to the chain walker: the
    attributes of [ParsedHeader], [RawHeader] (store_rust.py) and of the
    [Header] objects of store_checkpoint.py. The four hash attributes
    hold the [.hash] of the wrapped object. *)
Record header := mk_header {
  version : Z;
  parents : list parent_level;
  hashMerkleRoot : bytes;
  acceptedIDMerkleRoot : bytes;
  utxoCommitment : bytes;
  timeInMilliseconds : Z;
  bits : Z;
  nonce : Z;
  daaScore : Z;
  blueScore : Z;
  blueWork : bytes;
  pruningPoint : bytes;
  header_data : option HeaderData.t;   (* only [ParsedHeader] has it *)
  raw_data : option bytes              (* [ParsedHeader] and [RawHeader] *)
}.

(** [len(x)] as a Python integer. *)
Definition len {A} (l : list A) : Z := Z.of_nat (length l).

(** ** verify_kaspa_genesis.py: the hashers *)

Module Tx.
Record outpoint := { transactionId : bytes; index : Z }.
Record input := {
  previousOutpoint : outpoint;
  signatureScript : bytes;
  sequence : Z
}.
Record script_public_key := { spk_version : Z; script : bytes }.
Record output := { value : Z; scriptPublicKey : script_public_key }.
Record t := {
  version : Z;
  inputs : list input;
  outputs : list output;
  lockTime : Z;
  subnetworkID : bytes;
  gas : Z;
  payload : bytes
}.
End Tx.

Definition K_BLOCK : bytes := String.list_byte_of_string "BlockHash"%string.
Definition K_TX : bytes := String.list_byte_of_string "TransactionHash"%string.

Section Hashing.

(** [hashlib.blake2b(data, digest_size=n, key=k).digest()], taken as given. *)
Variable blake2b : nat -> bytes -> bytes -> bytes.

(** A [hashlib] hash object: [update] calls accumulate. *)
Record hasher := { digest_size : nat; key : bytes; fed : bytes }.

Definition new_hasher (n : nat) (k : bytes) : hasher :=
  {| digest_size := n; key := k; fed := [] |}.

Definition update (hs : hasher) (data : bytes) : hasher :=
  {| digest_size := digest_size hs; key := key hs; fed := fed hs ++ data |}.

Definition digest (hs : hasher) : bytes :=
  blake2b (digest_size hs) (key hs) (fed hs).

Definition hash_input (hs : hasher) (ti : Tx.input) : outcome hasher :=
  let hs := update hs (Tx.transactionId (Tx.previousOutpoint ti)) in
  do p <- struct_pack [(I, Tx.index (Tx.previousOutpoint ti));
                       (Q, len (Tx.signatureScript ti))] ;;
  let hs := update hs p in
  let hs := update hs (Tx.signatureScript ti) in
  do p <- struct_pack [(Q, Tx.sequence ti)] ;;
  Return (update hs p).

Definition hash_output (hs : hasher) (to : Tx.output) : outcome hasher :=
  do p <- struct_pack [(Q, Tx.value to);
                       (H, Tx.spk_version (Tx.scriptPublicKey to));
                       (Q, len (Tx.script (Tx.scriptPublicKey to)))] ;;
  let hs := update hs p in
  Return (update hs (Tx.script (Tx.scriptPublicKey to))).

(** A [for x in xs: ...] loop over a body that may raise. *)
Fixpoint for_each {A} (body : hasher -> A -> outcome hasher)
    (hs : hasher) (xs : list A) : outcome hasher :=
  match xs with
  | [] => Return hs
  | x :: rest => do hs <- body hs x ;; for_each body hs rest
  end.

Definition transaction_hash (t : Tx.t) : outcome bytes :=
  let hs := new_hasher 32 K_TX in
  do p <- struct_pack [(H, Tx.version t); (Q, len (Tx.inputs t))] ;;
  let hs := update hs p in
  do hs <- for_each hash_input hs (Tx.inputs t) ;;
  do p <- struct_pack [(Q, len (Tx.outputs t))] ;;
  let hs := update hs p in
  do hs <- for_each hash_output hs (Tx.outputs t) ;;
  do p <- struct_pack [(Q, Tx.lockTime t)] ;;
  let hs := update hs p in
  let hs := update hs (Tx.subnetworkID t) in
  do p <- struct_pack [(Q, Tx.gas t); (Q, len (Tx.payload t))] ;;
  let hs := update hs p in
  let hs := update hs (Tx.payload t) in
  Return (digest hs).

(** The body of [for level_parents in h.parents]: reading
    [.parentHashes] on a plain list raises [AttributeError]. *)
Definition hash_level (hs : hasher) (level_parents : parent_level)
  : outcome hasher :=
  match level_parents with
  | HashList _ => Raise AttributeError
  | ParentLevel parentHashes =>
      do p <- struct_pack [(Q, len parentHashes)] ;;
      let hs := update hs p in
      Return (fold_left update parentHashes hs)
  end.

Definition header_hash (h : header) : outcome bytes :=
  let hs := new_hasher 32 K_BLOCK in
  do p <- struct_pack [(H, version h); (Q, len (parents h))] ;;
  let hs := update hs p in
  do hs <- for_each hash_level hs (parents h) ;;
  let hs := update hs (hashMerkleRoot h) in
  let hs := update hs (acceptedIDMerkleRoot h) in
  let hs := update hs (utxoCommitment h) in
  do p <- struct_pack [(Q, timeInMilliseconds h);
                       (I, bits h);
                       (Q, nonce h);
                       (Q, daaScore h);
                       (Q, blueScore h);
                       (Q, len (blueWork h))] ;;
  let hs := update hs p in
  let hs := update hs (blueWork h) in
  let hs := update hs (pruningPoint h) in
  Return (digest hs).

End Hashing.

(** ** The capabilities the walker and the driver use *)

(** [store.get_raw_header(block_hash)]: a header object or [None]. *)
Class HeaderSource (S : Type) := get_raw_header : S -> bytes -> option header.

(** [store.tips()]: the tips and the headers selected tip. *)
Class TipsSource (S : Type) := tips : S -> list bytes * bytes.

(** ** store_rust.py: [class Store] *)

(** [class DatabaseStorePrefixes], the entries that are read; each is
    used as the one-byte key prefix [bytes([prefix])]. *)
Module DatabaseStorePrefixes.
Definition HEADERS_SELECTED_TIP : byte := x07.   (* 7 *)
Definition HEADERS : byte := x08.                (* 8 *)
Definition PRUNING_POINT : byte := x0d.          (* 13 *)
Definition TIPS : byte := x18.                   (* 24 *)
End DatabaseStorePrefixes.

Module Store.

(** The attributes of a [Store] object: [db] is the content of the
    rocksdict handle ([None] when it could not be opened) and [headers]
    the cache filled by [get_header_data]. *)
Record t := mk {
  db_available : bool;
  db : option (gmap bytes bytes);
  headers : gmap bytes HeaderData.t
}.

(** A result together with the keys passed to [self.db.get], in call order. *)
Definition traced (A : Type) : Type := A * list bytes.

Definition _build_key (prefix : byte) (components : list bytes) : bytes :=
  fold_left (fun key component => key ++ component) components [prefix].

(** The handle when [self.db_available and self.db is not None]. *)
Definition usable_db (self : t) : option (gmap bytes bytes) :=
  if db_available self then db self else None.

(** [ParsedHeader(header_data)]: the four hashes are wrapped, [parents]
    is handed over as it is. *)
Definition ParsedHeader (header_data : HeaderData.t) (header_bytes : bytes)
  : header :=
  {| version := HeaderData.version header_data;
     parents := HeaderData.parents header_data;
     hashMerkleRoot := HeaderData.hashMerkleRoot header_data;
     acceptedIDMerkleRoot := HeaderData.acceptedIDMerkleRoot header_data;
     utxoCommitment := HeaderData.utxoCommitment header_data;
     timeInMilliseconds := HeaderData.timeInMilliseconds header_data;
     bits := HeaderData.bits header_data;
     nonce := HeaderData.nonce header_data;
     daaScore := HeaderData.daaScore header_data;
     blueScore := HeaderData.blueScore header_data;
     blueWork := HeaderData.blueWork header_data;
     pruningPoint := HeaderData.pruningPoint header_data;
     header_data := Some header_data;
     raw_data := Some header_bytes |}.

(** [RawHeader(header_bytes)], the fallback with empty fields. *)
Definition RawHeader (data : bytes) : header :=
  {| version := 0;
     parents := [];
     hashMerkleRoot := [];
     acceptedIDMerkleRoot := [];
     utxoCommitment := [];
     timeInMilliseconds := 0;
     bits := 0;
     nonce := 0;
     daaScore := 0;
     blueScore := 0;
     blueWork := [];
     pruningPoint := [];
     header_data := None;
     raw_data := Some data |}.

Definition get_raw_header (self : t) (block_hash : bytes)
  : traced (option header) :=
  match usable_db self with
  | None => (None, [])
  | Some d =>
      let key := _build_key DatabaseStorePrefixes.HEADERS [block_hash] in
      match d !! key with
      | None => (None, [key])
      | Some header_bytes =>
          match deserialize_bincode_header (Some header_bytes) with
          | Some header_data =>
              (Some (ParsedHeader header_data header_bytes), [key])
          | None => (Some (RawHeader header_bytes), [key])
          end
      end
  end.

(** [value[:32] if len(value) >= 32 else value]. *)
Definition first32 (value : bytes) : bytes :=
  if (32 <=? length value)%nat then slice value 0 32 else value.

(** The [for i in range(tips_count)] loop with its [break]. *)
Fixpoint read_tips (tips_bytes : bytes) (pos : nat) (count : nat)
  : list bytes :=
  match count with
  | O => []
  | S k =>
      if (pos + 32 <=? length tips_bytes)%nat
      then slice tips_bytes pos (pos + 32)
             :: read_tips tips_bytes (pos + 32) k
      else []
  end.

Definition zero_hash : bytes := repeat x00 32.

Definition tips (self : t) : traced (list bytes * bytes) :=
  match usable_db self with
  | None => (([], []), [])
  | Some d =>
      let hst_key := _build_key DatabaseStorePrefixes.HEADERS_SELECTED_TIP [] in
      let hst_bytes := d !! hst_key in
      let tips_key := _build_key DatabaseStorePrefixes.TIPS [] in
      let tips_bytes := d !! tips_key in
      let reads := [hst_key; tips_key] in
      let hst_hash :=
        match hst_bytes with
        | None => zero_hash
        | Some hst_bytes => first32 hst_bytes
        end in
      match tips_bytes with
      | None => (([], hst_hash), reads)
      | Some tips_bytes =>
          if (8 <=? length tips_bytes)%nat then
            match struct_unpack Q (slice tips_bytes 0 8) with
            | Return tips_count =>
                ((read_tips tips_bytes 8 (Z.to_nat tips_count), hst_hash),
                 reads)
            | Raise _ =>
                ((if (length hst_hash =? 32)%nat then [hst_hash] else [],
                  hst_hash), reads)
            end
          else (([], hst_hash), reads)
      end
  end.

Definition pruning_point (self : t) : traced bytes :=
  match usable_db self with
  | None => ([], [])
  | Some d =>
      let pp_key := _build_key DatabaseStorePrefixes.PRUNING_POINT [] in
      match d !! pp_key with
      | None => ([], [pp_key])
      | Some pp_bytes => (first32 pp_bytes, [pp_key])
      end
  end.

Definition cache (self : t) (block_hash : bytes) (h : HeaderData.t) : t :=
  {| db_available := db_available self;
     db := db self;
     headers := <[block_hash := h]> (headers self) |}.

(** Returns the header data, the store after the call and the keys
    read from the database during the call. *)
Definition get_header_data (self : t) (block_hash : bytes)
  : traced (option HeaderData.t * t) :=
  match headers self !! block_hash with
  | Some h => ((Some h, self), [])
  | None =>
      let '(raw_header, reads) := get_raw_header self block_hash in
      match raw_header with
      | None => ((None, self), reads)
      | Some raw_header =>
          match header_data raw_header with
          | Some h => ((Some h, cache self block_hash h), reads)
          | None =>
              let h := {|
                HeaderData.hashMerkleRoot := hashMerkleRoot raw_header;
                HeaderData.acceptedIDMerkleRoot :=
                  acceptedIDMerkleRoot raw_header;
                HeaderData.utxoCommitment := utxoCommitment raw_header;
                HeaderData.pruningPoint := pruningPoint raw_header;
                HeaderData.timeInMilliseconds :=
                  timeInMilliseconds raw_header;
                HeaderData.bits := bits raw_header;
                HeaderData.nonce := nonce raw_header;
                HeaderData.daaScore := daaScore raw_header;
                HeaderData.blueWork := blueWork raw_header;
                HeaderData.blueScore := blueScore raw_header;
                HeaderData.version := version raw_header;
                HeaderData.parents := parents raw_header
              |} in
              ((Some h, cache self block_hash h), reads)
          end
      end
  end.

End Store.

#[global] Instance store_header_source : HeaderSource Store.t :=
  fun self block_hash => fst (Store.get_raw_header self block_hash).
#[global] Instance store_tips_source : TipsSource Store.t :=
  fun self => fst (Store.tips self).

(** ** store_checkpoint.py: [class CheckpointStore] *)

Module CheckpointStore.

(** One element of [data['headers_chain']], its hex strings decoded. *)
Record entry := {
  json_hash : bytes;
  json_version : Z;
  json_parents : list (list bytes);
  json_hashMerkleRoot : bytes;
  json_acceptedIDMerkleRoot : bytes;
  json_utxoCommitment : bytes;
  json_pruningPoint : bytes;
  json_timeInMilliseconds : Z;
  json_bits : Z;
  json_nonce : Z;
  json_daaScore : Z;
  json_blueScore : Z;
  json_blueWork : bytes
}.

Record t := mk { headers : gmap bytes header }.

(** The [Header] object built for one entry. *)
Definition make_header (header_data : entry) : header :=
  {| version := json_version header_data;
     parents := map ParentLevel (json_parents header_data);
     hashMerkleRoot := json_hashMerkleRoot header_data;
     acceptedIDMerkleRoot := json_acceptedIDMerkleRoot header_data;
     utxoCommitment := json_utxoCommitment header_data;
     timeInMilliseconds := json_timeInMilliseconds header_data;
     bits := json_bits header_data;
     nonce := json_nonce header_data;
     daaScore := json_daaScore header_data;
     blueScore := json_blueScore header_data;
     blueWork := json_blueWork header_data;
     pruningPoint := json_pruningPoint header_data;
     header_data := None;
     raw_data := None |}.

(** [__init__]: later entries overwrite earlier ones with the same hash. *)
Definition init (headers_chain : list entry) : t :=
  mk (fold_left
        (fun headers header_data =>
           <[json_hash header_data := make_header header_data]> headers)
        headers_chain ∅).

Definition get_raw_header (self : t) (block_hash : bytes) : option header :=
  headers self !! block_hash.

End CheckpointStore.

#[global] Instance checkpoint_header_source : HeaderSource CheckpointStore.t :=
  CheckpointStore.get_raw_header.

(** ** verify_kaspa_genesis.py: the chain walker *)

(** The exits of [assert_cryptographic_hash_chain_to_genesis]. *)
Inductive walk_exit :=
| Reached (i : nat)             (* [return True], after [i] pruning points *)
| HeaderNotFound (k : bytes)    (* "Header not found for hash", [return False] *)
| HashMismatch (k : bytes)      (* "Hash mismatch at block", [return False] *)
| TooManyIterations             (* "Too many iterations", [return False] *)
| WalkRaised (e : exn)          (* an exception of [header_hash] propagates *)
| FuelExhausted.                (* no exit of the source: the model of the
                                   loop ran out of fuel *)

Section Walker.

Variable blake2b : nat -> bytes -> bytes -> bytes.
Context {S : Type} `{HeaderSource S}.

(** The [while True] loop, entered with the current [block_hash] and
    counter [i]; [fuel] bounds the number of iterations modelled. *)
Fixpoint walk_loop (fuel : nat) (store : S) (block_hash genesis_hash : bytes)
    (i : nat) : walk_exit :=
  match fuel with
  | O => FuelExhausted
  | Datatypes.S fuel =>
      if bool_decide (block_hash = genesis_hash) then Reached i
      else
        match get_raw_header store block_hash with
        | None => HeaderNotFound block_hash
        | Some header =>
            match header_hash blake2b header with
            | Raise e => WalkRaised e
            | Return calculated_hash =>
                if bool_decide (calculated_hash <> block_hash)
                then HashMismatch block_hash
                else
                  let block_hash := pruningPoint header in
                  let i := (i + 1)%nat in
                  if (1000 <? i)%nat then TooManyIterations
                  else walk_loop fuel store block_hash genesis_hash i
            end
        end
  end.

(** The loop is left after at most 1001 iterations (see
    [walk_loop_enough_fuel]). *)
Definition assert_cryptographic_hash_chain_to_genesis
    (store : S) (block_hash genesis_hash : bytes) : walk_exit :=
  walk_loop 1001 store block_hash genesis_hash 0.

End Walker.

(** The value the walker hands to its caller. *)
Definition walk_value (w : walk_exit) : option (outcome bool) :=
  match w with
  | Reached _ => Some (Return true)
  | HeaderNotFound _ | HashMismatch _ | TooManyIterations => Some (Return false)
  | WalkRaised e => Some (Raise e)
  | FuelExhausted => None
  end.

(** ** verify_kaspa_genesis.py: the driver *)

Definition genesis_hash : bytes :=
  [x58; xc2; xd4; x19; x9e; x21; xf9; x10;
   xd1; x57; x1d; x11; x49; x69; xce; xce;
   xf4; x8f; x09; xf9; x34; xd4; x2c; xcb;
   x6a; x28; x1a; x15; x86; x8f; x29; x99].

Definition genesis_tx_payload : bytes :=
  [x00; x00; x00; x00; x00; x00; x00; x00;
   x00; xe1; xf5; x05; x00; x00; x00; x00;
   x00; x00; x01; x00; xd7; x95; xd7; x9e;
   xd7; x94; x20; xd7; x93; xd7; x99; x20;
   xd7; xa2; xd7; x9c; xd7; x99; xd7; x9a;
   x20; xd7; x95; xd7; xa2; xd7; x9c; x20;
   xd7; x90; xd7; x97; xd7; x99; xd7; x9a;
   x20; xd7; x99; xd7; x99; xd7; x98; xd7;
   x91; x20; xd7; x91; xd7; xa9; xd7; x90;
   xd7; xa8; x20; xd7; x9b; xd7; xa1; xd7;
   xa4; xd7; x90; x20; xd7; x95; xd7; x93;
   xd7; x94; xd7; x91; xd7; x94; x20; xd7;
   x9c; xd7; x9e; xd7; xa2; xd7; x91; xd7;
   x93; x20; xd7; x9b; xd7; xa8; xd7; xa2;
   xd7; x95; xd7; xaa; x20; xd7; x90; xd7;
   x9c; xd7; x94; xd7; x9b; xd7; x9d; x20;
   xd7; xaa; xd7; xa2; xd7; x91; xd7; x93;
   xd7; x95; xd7; x9f; x00; x00; x00; x00;
   x00; x00; x00; x00; x00; x0b; x1f; x8e;
   x1c; x17; xb0; x13; x3d; x43; x91; x74;
   xe5; x2e; xfb; xb0; xc4; x1c; x35; x83;
   xa8; xaa; x66; xb0; x0f; xca; x37; xca;
   x66; x7c; x2d; x55; x0a; x6c; x44; x16;
   xda; xd9; x71; x7e; x50; x92; x71; x28;
   xc4; x24; xfa; x4e; xdb; xeb; xc4; x36;
   xab; x13; xae; xef].

Definition checkpoint_hash : bytes :=
  [x0f; xca; x37; xca; x66; x7c; x2d; x55;
   x0a; x6c; x44; x16; xda; xd9; x71; x7e;
   x50; x92; x71; x28; xc4; x24; xfa; x4e;
   xdb; xeb; xc4; x36; xab; x13; xae; xef].

Definition original_genesis : bytes :=
  [xca; xeb; x97; x96; x0a; x16; x0c; x21;
   x1a; x6b; x21; x96; xbd; x78; x39; x9f;
   xd4; xc4; xcc; x5b; x50; x9f; x55; xc1;
   x2c; x8a; x7d; x81; x5f; x75; x36; xea].

Definition empty_muhash : bytes :=
  [x54; x4e; xb3; x14; x2c; x00; x0f; x0a;
   xd2; xc7; x6a; xc4; x1f; x42; x22; xab;
   xba; xba; xbe; xd8; x30; xee; xaf; xee;
   x4b; x6d; xc5; x6b; x52; xd5; xca; xc0].

Definition genesis_subnetwork_id : bytes := x01 :: repeat x00 19.

(** The synthetic genesis coinbase transaction of step 4. *)
Definition genesis_coinbase_tx : Tx.t :=
  {| Tx.version := 0;
     Tx.inputs := [];
     Tx.outputs := [];
     Tx.lockTime := 0;
     Tx.subnetworkID := genesis_subnetwork_id;
     Tx.gas := 0;
     Tx.payload := genesis_tx_payload |}.

(** What [verification/checkpoint_data.json] holds when step 7 looks. *)
Inductive checkpoint_json :=
| JsonAbsent                      (* [os.path.exists] is false *)
| JsonUnreadable (e : exn)        (* [CheckpointStore(path)] raises *)
| JsonLoaded (headers_chain : list CheckpointStore.entry).

(** Step 6 is informational. *)
Inductive genesis_kind := OriginalGenesis | HardwiredGenesis.

(** What step 7 printed. *)
Inductive original_genesis_report :=
| OriginalGenesisAbsent     (* header not in the sidecar: nothing printed *)
| EmptyUtxoSet              (* "Original genesis has empty UTXO set verified!" *)
| NonEmptyUtxoSet.          (* "Original genesis UTXO set is not empty!" *)

Inductive chain_report :=
| ChainVerified (og : original_genesis_report)
| ChainNotVerified (w : walk_exit).   (* "Checkpoint chain verification failed" *)

Inductive checkpoint_report :=
| CheckpointHeaderNotFound            (* "Checkpoint header not found in data" *)
| CheckpointChecked (utxo_commitments_match : bool) (chain : chain_report).

Inductive phase7_report :=
| SnapshotChecked (r : checkpoint_report)
| FullDatabaseRequested     (* [elif pre_checkpoint_datadir]: only prints *)
| Skipped.                  (* "Pre-checkpoint verification skipped" *)

(** The exits of [verify_genesis]. *)
Inductive verify_exit :=
| GenesisHeaderNotFound
| GenesisHashMismatch
| CoinbaseMismatch
| HashChainFailed (w : walk_exit)
| NoTips
| Excepted (e : exn)                          (* [except Exception] *)
| Completed (k : genesis_kind) (p7 : phase7_report).   (* [return True] *)

(** The boolean [verify_genesis] returns. *)
Definition verify_value (x : verify_exit) : bool :=
  match x with
  | Completed _ _ => true
  | _ => false
  end.

(** [sys.exit(0 if success else 1)] in [main]. *)
Definition exit_code (success : bool) : Z := if success then 0 else 1.

Section Driver.

Variable blake2b : nat -> bytes -> bytes -> bytes.

(** The [if use_checkpoint_json:] block, after the store is built. *)
Definition check_snapshot (genesis_header : header)
    (pre_checkpoint_store : CheckpointStore.t) : outcome checkpoint_report :=
  match get_raw_header pre_checkpoint_store checkpoint_hash with
  | None => Return CheckpointHeaderNotFound
  | Some checkpoint_header =>
      let utxo_ok :=
        bool_decide (utxoCommitment genesis_header
                     = utxoCommitment checkpoint_header) in
      match assert_cryptographic_hash_chain_to_genesis blake2b
              pre_checkpoint_store checkpoint_hash original_genesis with
      | Reached _ =>
          match get_raw_header pre_checkpoint_store original_genesis with
          | None =>
              Return (CheckpointChecked utxo_ok
                        (ChainVerified OriginalGenesisAbsent))
          | Some original_genesis_header =>
              if bool_decide (utxoCommitment original_genesis_header
                              = empty_muhash)
              then Return (CheckpointChecked utxo_ok
                             (ChainVerified EmptyUtxoSet))
              else Return (CheckpointChecked utxo_ok
                             (ChainVerified NonEmptyUtxoSet))
          end
      | WalkRaised e => Raise e
      | w => Return (CheckpointChecked utxo_ok (ChainNotVerified w))
      end
  end.

(** Step 7. *)
Definition pre_checkpoint_verification (genesis_header : header)
    (checkpoint_data : checkpoint_json)
    (pre_checkpoint_datadir : option string) : outcome phase7_report :=
  match checkpoint_data with
  | JsonLoaded headers_chain =>
      do r <- check_snapshot genesis_header
                (CheckpointStore.init headers_chain) ;;
      Return (SnapshotChecked r)
  | JsonUnreadable e => Raise e
  | JsonAbsent =>
      match pre_checkpoint_datadir with
      | Some (String _ _) => Return FullDatabaseRequested
      | Some EmptyString | None => Return Skipped
      end
  end.

(** [all(byte == 0 for byte in utxo_commitment)]. *)
Definition classify_genesis (utxo_commitment : bytes) : genesis_kind :=
  if forallb (fun b => Byte.eqb b x00) utxo_commitment
  then OriginalGenesis else HardwiredGenesis.

(** [verify_genesis], from the store that [Store(datadir)] built (the
    constructor catches its own errors; [verbose] only affects what
    is printed). *)
Definition verify_genesis {S : Type} `{HeaderSource S} `{TipsSource S}
    (current_store : S) (checkpoint_data : checkpoint_json)
    (pre_checkpoint_datadir : option string) : verify_exit :=
  let '(tips, hst) := tips current_store in
  match get_raw_header current_store genesis_hash with
  | None => GenesisHeaderNotFound
  | Some genesis_header =>
      match header_hash blake2b genesis_header with
      | Raise e => Excepted e
      | Return h =>
          if bool_decide (h <> genesis_hash) then GenesisHashMismatch
          else
            match transaction_hash blake2b genesis_coinbase_tx with
            | Raise e => Excepted e
            | Return calc_hash =>
                if bool_decide (calc_hash <> hashMerkleRoot genesis_header)
                then CoinbaseMismatch
                else
                  let chain_tip :=
                    match tips with
                    | tip :: _ => tip
                    | [] => hst
                    end in
                  match chain_tip with
                  | [] => NoTips
                  | _ :: _ =>
                      match assert_cryptographic_hash_chain_to_genesis
                              blake2b current_store chain_tip genesis_hash
                      with
                      | Reached _ =>
                          let k := classify_genesis
                                     (utxoCommitment genesis_header) in
                          match pre_checkpoint_verification genesis_header
                                  checkpoint_data pre_checkpoint_datadir
                          with
                          | Return p7 => Completed k p7
                          | Raise e => Excepted e
                          end
                      | WalkRaised e => Excepted e
                      | w => HashChainFailed w
                      end
                  end
            end
      end
  end.

End Driver.

(** ** Sample data *)

(** A store whose database was opened, with nothing cached yet. *)
Definition opened_store (d : gmap bytes bytes) : Store.t :=
  Store.mk true (Some d) ∅.

(** A database with a selected tip and no tips record. *)
Definition db_only_selected_tip : gmap bytes bytes :=
  {[ [DatabaseStorePrefixes.HEADERS_SELECTED_TIP] := repeat x01 32 ]}.

(** A database with one tip and no selected tip record. *)
Definition db_only_tips : gmap bytes bytes :=
  {[ [DatabaseStorePrefixes.TIPS] := le_bytes 8 1 ++ repeat x02 32 ]}.

(** A database with an over-long pruning point record. *)
Definition db_pruning_point : gmap bytes bytes :=
  {[ [DatabaseStorePrefixes.PRUNING_POINT] := repeat x07 40 ]}.

(** A minimal serialized header: 230 zero bytes (no parent levels). *)
Definition zero_header_bytes : bytes := repeat x00 230.

Definition sample_key : bytes := repeat xaa 32.

Definition db_one_header : gmap bytes bytes :=
  {[ DatabaseStorePrefixes.HEADERS :: sample_key := zero_header_bytes ]}.

(** ** The hash preimages as the specification words them *)

(** Section 4.3, [header_hash]: version, level count, per level its count
    and hashes, the three roots, the scalar block with the length of
    blue_work written as the constant 24, blue_work, pruning_point. *)
Definition header_preimage (h : header) (levels : list (list bytes)) : bytes :=
  le_bytes 2 (version h) ++ le_bytes 8 (len levels)
  ++ concat (map (fun level => le_bytes 8 (len level) ++ concat level) levels)
  ++ hashMerkleRoot h ++ acceptedIDMerkleRoot h ++ utxoCommitment h
  ++ le_bytes 8 (timeInMilliseconds h) ++ le_bytes 4 (bits h)
  ++ le_bytes 8 (nonce h) ++ le_bytes 8 (daaScore h)
  ++ le_bytes 8 (blueScore h) ++ le_bytes 8 24
  ++ blueWork h ++ pruningPoint h.

(** The number of preimage bytes the parent levels take. *)
Definition levels_size (levels : list (list bytes)) : nat :=
  fold_right (fun level acc => (8 + 32 * length level + acc)%nat) 0%nat levels.

(** A header as section 3 types it: [levels] are its parent levels. *)
Record typed_header (h : header) (levels : list (list bytes)) : Prop := {
  th_parents : parents h = map ParentLevel levels;
  th_version : 0 <= version h < 2 ^ 16;
  th_levels : len levels < 2 ^ 64;
  th_level :
    Forall (fun level : list bytes =>
              len level < 2 ^ 64
              /\ Forall (fun p : bytes => length p = 32%nat) level) levels;
  th_hashMerkleRoot : length (hashMerkleRoot h) = 32%nat;
  th_acceptedIDMerkleRoot : length (acceptedIDMerkleRoot h) = 32%nat;
  th_utxoCommitment : length (utxoCommitment h) = 32%nat;
  th_pruningPoint : length (pruningPoint h) = 32%nat;
  th_timeInMilliseconds : 0 <= timeInMilliseconds h < 2 ^ 64;
  th_bits : 0 <= bits h < 2 ^ 32;
  th_nonce : 0 <= nonce h < 2 ^ 64;
  th_daaScore : 0 <= daaScore h < 2 ^ 64;
  th_blueScore : 0 <= blueScore h < 2 ^ 64;
  th_blueWork : length (blueWork h) = 24%nat
}.

(** Section 4.3, [transaction_hash], for a transaction without inputs
    and outputs. *)
Definition coinbase_preimage : bytes :=
  le_bytes 2 0 ++ le_bytes 8 0 ++ le_bytes 8 0 ++ le_bytes 8 0
  ++ genesis_subnetwork_id ++ le_bytes 8 0
  ++ le_bytes 8 (len genesis_tx_payload) ++ genesis_tx_payload.

(** A header in the shape of store_checkpoint.py, with one parent level
    of two parents. *)
Definition sample_levels : list (list bytes) :=
  [[repeat x11 32; repeat x22 32]].

Definition sample_header : header :=
  {| version := 1;
     parents := map ParentLevel sample_levels;
     hashMerkleRoot := repeat x33 32;
     acceptedIDMerkleRoot := repeat x44 32;
     utxoCommitment := repeat x55 32;
     timeInMilliseconds := 0x0102030405060708;
     bits := 486722099;
     nonce := 211244;
     daaScore := 1312860;
     blueScore := 1312860;
     blueWork := repeat x66 24;
     pruningPoint := repeat x77 32;
     header_data := None;
     raw_data := None |}.

(** ** Verified pruning-point chains *)

Section Chains.

Variable blake2b : nat -> bytes -> bytes -> bytes.
Context {St : Type} `{HeaderSource St}.

(** [follows store target k n k']: from [k] there are [n] pruning-point
    links to [k']; each header on the way is stored under a key other
    than [target] and hashes to the key it is stored under. *)
Inductive follows (store : St) (target : bytes) : bytes -> nat -> bytes -> Prop :=
| follows_here k : follows store target k 0 k
| follows_link k header n k' :
    k <> target ->
    get_raw_header store k = Some header ->
    header_hash blake2b header = Return k ->
    follows store target (pruningPoint header) n k' ->
    follows store target k (Datatypes.S n) k'.

End Chains.

(** ** Stand-ins for the hash function in the examples *)

(** Exchanges the bytes [0a] and [0b]. *)
Definition swap_byte (b : byte) : byte :=
  match b with
  | x0a => x0b
  | x0b => x0a
  | _ => b
  end.

(** Digest: the last [n] bytes of the data, with [0a] and [0b] exchanged. *)
Definition swap_tail_hash (n : nat) (_ : bytes) (data : bytes) : bytes :=
  map swap_byte (drop (length data - n) data).

(** Digest: the first [n] bytes of key and data. *)
Definition prefix_hash (n : nat) (k : bytes) (data : bytes) : bytes :=
  take n (k ++ data).

(** Digest: always the genesis hash. *)
Definition genesis_const_hash (_ : nat) (_ : bytes) (_ : bytes) : bytes :=
  genesis_hash.

(** ** Sample chains and databases *)

Definition hash_a : bytes := repeat x0a 32.
Definition hash_b : bytes := repeat x0b 32.

(** A sidecar entry with the given hash and pruning point, no parents and
    zero fields otherwise. *)
Definition plain_entry (hash pruning_point : bytes) : CheckpointStore.entry :=
  {| CheckpointStore.json_hash := hash;
     CheckpointStore.json_version := 0;
     CheckpointStore.json_parents := [];
     CheckpointStore.json_hashMerkleRoot := repeat x00 32;
     CheckpointStore.json_acceptedIDMerkleRoot := repeat x00 32;
     CheckpointStore.json_utxoCommitment := repeat x00 32;
     CheckpointStore.json_pruningPoint := pruning_point;
     CheckpointStore.json_timeInMilliseconds := 0;
     CheckpointStore.json_bits := 0;
     CheckpointStore.json_nonce := 0;
     CheckpointStore.json_daaScore := 0;
     CheckpointStore.json_blueScore := 0;
     CheckpointStore.json_blueWork := repeat x00 24 |}.

(** Two headers that name each other as pruning point; under
    [swap_tail_hash] each hashes to its own key. *)
Definition cycle_store : CheckpointStore.t :=
  CheckpointStore.init [plain_entry hash_a hash_b; plain_entry hash_b hash_a].

(** A tip at [hash_b] that links to [hash_a], where the stored header was
    altered: under [swap_tail_hash] it no longer hashes to [hash_a]. *)
Definition tampered_store : CheckpointStore.t :=
  CheckpointStore.init
    [plain_entry hash_b hash_a; plain_entry hash_a (repeat x00 32)].

(** A serialized header without parents whose only non-zero field is
    [hash_merkle_root]. *)
Definition header_bytes_with_merkle_root (root : bytes) : bytes :=
  repeat x00 42 ++ root ++ repeat x00 156.

(** A database whose only block is the genesis block, which is the tip. *)
Definition db_genesis_only (genesis_header_bytes : bytes) : gmap bytes bytes :=
  <[ DatabaseStorePrefixes.HEADERS :: genesis_hash := genesis_header_bytes ]>
    {[ [DatabaseStorePrefixes.TIPS] := le_bytes 8 1 ++ genesis_hash ]}.

(** Step 7 passed: commitments match, chain verified, empty UTXO set. *)
Definition snapshot_passed (r : checkpoint_report) : bool :=
  match r with
  | CheckpointChecked true (ChainVerified EmptyUtxoSet) => true
  | _ => false
  end.

(** What the decoder makes of [zero_header_bytes]. *)
Definition zero_header_data : HeaderData.t :=
  {| HeaderData.hashMerkleRoot := repeat x00 32;
     HeaderData.acceptedIDMerkleRoot := repeat x00 32;
     HeaderData.utxoCommitment := repeat x00 32;
     HeaderData.pruningPoint := repeat x00 32;
     HeaderData.timeInMilliseconds := 0;
     HeaderData.bits := 0;
     HeaderData.nonce := 0;
     HeaderData.daaScore := 0;
     HeaderData.blueWork := repeat x00 24;
     HeaderData.blueScore := 0;
     HeaderData.version := 0;
     HeaderData.parents := [] |}.

(** A serialized header with one parent level holding one parent, all
    other fields zero: 270 bytes. *)
Definition one_parent_header_bytes : bytes :=
  repeat x00 34 ++ le_bytes 8 1 ++ le_bytes 8 1 ++ repeat x11 32
  ++ repeat x00 188.

(** A database with the genesis header and a tip, stored under
    [hash_a], that has a parent level. *)
Definition db_with_tip : gmap bytes bytes :=
  <[ DatabaseStorePrefixes.HEADERS :: hash_a := one_parent_header_bytes ]>
    (<[ DatabaseStorePrefixes.HEADERS :: genesis_hash
          := header_bytes_with_merkle_root genesis_hash ]>
       {[ [DatabaseStorePrefixes.TIPS] := le_bytes 8 1 ++ hash_a ]}).

(** ** The transaction preimage as the specification words it *)

(** Section 4.3, [transaction_hash], step 2: one input. *)
Definition input_bytes (ti : Tx.input) : bytes :=
  Tx.transactionId (Tx.previousOutpoint ti)
  ++ le_bytes 4 (Tx.index (Tx.previousOutpoint ti))
  ++ le_bytes 8 (len (Tx.signatureScript ti))
  ++ Tx.signatureScript ti
  ++ le_bytes 8 (Tx.sequence ti).

(** Section 4.3, [transaction_hash], step 4: one output. *)
Definition output_bytes (to : Tx.output) : bytes :=
  le_bytes 8 (Tx.value to)
  ++ le_bytes 2 (Tx.spk_version (Tx.scriptPublicKey to))
  ++ le_bytes 8 (len (Tx.script (Tx.scriptPublicKey to)))
  ++ Tx.script (Tx.scriptPublicKey to).

Definition transaction_preimage (t : Tx.t) : bytes :=
  le_bytes 2 (Tx.version t) ++ le_bytes 8 (len (Tx.inputs t))
  ++ concat (map input_bytes (Tx.inputs t))
  ++ le_bytes 8 (len (Tx.outputs t))
  ++ concat (map output_bytes (Tx.outputs t))
  ++ le_bytes 8 (Tx.lockTime t) ++ Tx.subnetworkID t
  ++ le_bytes 8 (Tx.gas t) ++ le_bytes 8 (len (Tx.payload t))
  ++ Tx.payload t.

Definition typed_input (ti : Tx.input) : Prop :=
  0 <= Tx.index (Tx.previousOutpoint ti) < 2 ^ 32
  /\ len (Tx.signatureScript ti) < 2 ^ 64
  /\ 0 <= Tx.sequence ti < 2 ^ 64.

Definition typed_output (to : Tx.output) : Prop :=
  0 <= Tx.value to < 2 ^ 64
  /\ 0 <= Tx.spk_version (Tx.scriptPublicKey to) < 2 ^ 16
  /\ len (Tx.script (Tx.scriptPublicKey to)) < 2 ^ 64.

(** A transaction whose integer fields fit their formats. *)
Record typed_transaction (t : Tx.t) : Prop := {
  tt_version : 0 <= Tx.version t < 2 ^ 16;
  tt_inputs : len (Tx.inputs t) < 2 ^ 64;
  tt_input : Forall typed_input (Tx.inputs t);
  tt_outputs : len (Tx.outputs t) < 2 ^ 64;
  tt_output : Forall typed_output (Tx.outputs t);
  tt_lockTime : 0 <= Tx.lockTime t < 2 ^ 64;
  tt_gas : 0 <= Tx.gas t < 2 ^ 64;
  tt_payload : len (Tx.payload t) < 2 ^ 64
}.

(** A transaction with one input and one output. *)
Definition sample_transaction : Tx.t :=
  {| Tx.version := 0;
     Tx.inputs :=
       [{| Tx.previousOutpoint :=
             {| Tx.transactionId := repeat x01 32; Tx.index := 3 |};
           Tx.signatureScript := [x41; x42];
           Tx.sequence := 7 |}];
     Tx.outputs :=
       [{| Tx.value := 100000000;
           Tx.scriptPublicKey :=
             {| Tx.spk_version := 0; Tx.script := [x20; xac] |} |}];
     Tx.lockTime := 0;
     Tx.subnetworkID := repeat x00 20;
     Tx.gas := 0;
     Tx.payload := [] |}.

(** ** The stored layout of a header *)

(** The bincode layout of the Rust [Header] struct as the comment in
    [deserialize_bincode_header] lists it: the stored hash, the version,
    the parent levels (a length-prefixed vector of length-prefixed
    vectors of hashes), the three roots, timestamp, bits, nonce,
    daa_score, blue_work, blue_score and the pruning point. *)
Definition encode_levels (levels : list (list bytes)) : bytes :=
  concat (map (fun level => le_bytes 8 (len level) ++ concat level) levels).

Definition encode_header (stored_hash : bytes) (h : HeaderData.t)
    (levels : list (list bytes)) : bytes :=
  stored_hash
  ++ le_bytes 2 (HeaderData.version h)
  ++ le_bytes 8 (len levels)
  ++ encode_levels levels
  ++ HeaderData.hashMerkleRoot h
  ++ HeaderData.acceptedIDMerkleRoot h
  ++ HeaderData.utxoCommitment h
  ++ le_bytes 8 (HeaderData.timeInMilliseconds h)
  ++ le_bytes 4 (HeaderData.bits h)
  ++ le_bytes 8 (HeaderData.nonce h)
  ++ le_bytes 8 (HeaderData.daaScore h)
  ++ HeaderData.blueWork h
  ++ le_bytes 8 (HeaderData.blueScore h)
  ++ HeaderData.pruningPoint h.

(** Header data as the Rust struct types it: [levels] are its parent
    levels, kept as plain lists. *)
Record typed_header_data (h : HeaderData.t) (levels : list (list bytes))
  : Prop := {
  td_parents : HeaderData.parents h = map HashList levels;
  td_version : 0 <= HeaderData.version h < 2 ^ 16;
  td_levels : len levels < 2 ^ 64;
  td_level :
    Forall (fun level : list bytes =>
              len level < 2 ^ 64
              /\ Forall (fun p : bytes => length p = 32%nat) level) levels;
  td_hashMerkleRoot : length (HeaderData.hashMerkleRoot h) = 32%nat;
  td_acceptedIDMerkleRoot :
    length (HeaderData.acceptedIDMerkleRoot h) = 32%nat;
  td_utxoCommitment : length (HeaderData.utxoCommitment h) = 32%nat;
  td_pruningPoint : length (HeaderData.pruningPoint h) = 32%nat;
  td_timeInMilliseconds : 0 <= HeaderData.timeInMilliseconds h < 2 ^ 64;
  td_bits : 0 <= HeaderData.bits h < 2 ^ 32;
  td_nonce : 0 <= HeaderData.nonce h < 2 ^ 64;
  td_daaScore : 0 <= HeaderData.daaScore h < 2 ^ 64;
  td_blueScore : 0 <= HeaderData.blueScore h < 2 ^ 64;
  td_blueWork : length (HeaderData.blueWork h) = 24%nat
}.

(** Header data with two parent levels. *)
Definition sample_header_data : HeaderData.t :=
  {| HeaderData.hashMerkleRoot := repeat x33 32;
     HeaderData.acceptedIDMerkleRoot := repeat x44 32;
     HeaderData.utxoCommitment := repeat x55 32;
     HeaderData.pruningPoint := repeat x77 32;
     HeaderData.timeInMilliseconds := 1637609671037;
     HeaderData.bits := 486722099;
     HeaderData.nonce := 211244;
     HeaderData.daaScore := 1312860;
     HeaderData.blueWork := repeat x66 24;
     HeaderData.blueScore := 1312860;
     HeaderData.version := 1;
     HeaderData.parents :=
       [HashList [repeat x11 32; repeat x22 32]; HashList [repeat x11 32]] |}.

Definition sample_data_levels : list (list bytes) :=
  [[repeat x11 32; repeat x22 32]; [repeat x11 32]].

(** ** What [header_hash] feeds, whatever the field widths *)

(** The bytes [header_hash] feeds for a header whose parent levels are
    [levels] (objects with [.parentHashes]): like [header_preimage], with
    the actual length of [blueWork] written before it. *)
Definition header_hash_input (h : header) (levels : list (list bytes)) : bytes :=
  le_bytes 2 (version h) ++ le_bytes 8 (len levels)
  ++ concat (map (fun level => le_bytes 8 (len level) ++ concat level) levels)
  ++ hashMerkleRoot h ++ acceptedIDMerkleRoot h ++ utxoCommitment h
  ++ le_bytes 8 (timeInMilliseconds h) ++ le_bytes 4 (bits h)
  ++ le_bytes 8 (nonce h) ++ le_bytes 8 (daaScore h)
  ++ le_bytes 8 (blueScore h) ++ le_bytes 8 (len (blueWork h))
  ++ blueWork h ++ pruningPoint h.

(** The integer fields fit their formats (the byte fields may have any
    length below 2^64). *)
Record header_in_range (h : header) (levels : list (list bytes)) : Prop := {
  hr_parents : parents h = map ParentLevel levels;
  hr_version : 0 <= version h < 2 ^ 16;
  hr_levels : len levels < 2 ^ 64;
  hr_level : Forall (fun level : list bytes => len level < 2 ^ 64) levels;
  hr_timeInMilliseconds : 0 <= timeInMilliseconds h < 2 ^ 64;
  hr_bits : 0 <= bits h < 2 ^ 32;
  hr_nonce : 0 <= nonce h < 2 ^ 64;
  hr_daaScore : 0 <= daaScore h < 2 ^ 64;
  hr_blueScore : 0 <= blueScore h < 2 ^ 64;
  hr_blueWork : len (blueWork h) < 2 ^ 64
}.

(** What [header_hash] feeds for the fallback [RawHeader]: 54 zero bytes
    (version, level count and the six scalars, between empty byte fields). *)
Definition raw_header_hash_input : bytes := repeat x00 54.

(** A database with one record too short to decode. *)
Definition db_corrupt_record : gmap bytes bytes :=
  {[ DatabaseStorePrefixes.HEADERS :: sample_key := repeat x00 150 ]}.

(** A tips record that announces three tips and holds one and a half. *)
Definition db_truncated_tips : gmap bytes bytes :=
  {[ [DatabaseStorePrefixes.TIPS]
       := le_bytes 8 3 ++ repeat x02 32 ++ repeat x03 16 ]}.

(** A sidecar chain in which the hash [hash_a] occurs twice. *)
Definition duplicate_chain : list CheckpointStore.entry :=
  [plain_entry hash_a hash_b; plain_entry hash_b hash_a;
   plain_entry hash_a (repeat x00 32)].

(** The integer fields of a sidecar entry fit their formats. *)
Record entry_in_range (e : CheckpointStore.entry) : Prop := {
  er_version : 0 <= CheckpointStore.json_version e < 2 ^ 16;
  er_levels : len (CheckpointStore.json_parents e) < 2 ^ 64;
  er_level :
    Forall (fun level : list bytes => len level < 2 ^ 64)
      (CheckpointStore.json_parents e);
  er_timeInMilliseconds :
    0 <= CheckpointStore.json_timeInMilliseconds e < 2 ^ 64;
  er_bits : 0 <= CheckpointStore.json_bits e < 2 ^ 32;
  er_nonce : 0 <= CheckpointStore.json_nonce e < 2 ^ 64;
  er_daaScore : 0 <= CheckpointStore.json_daaScore e < 2 ^ 64;
  er_blueScore : 0 <= CheckpointStore.json_blueScore e < 2 ^ 64;
  er_blueWork : len (CheckpointStore.json_blueWork e) < 2 ^ 64
}.

(** Digest: always the checkpoint hash. *)
Definition checkpoint_const_hash (_ : nat) (_ : bytes) (_ : bytes) : bytes :=
  checkpoint_hash.

(** A header that carries the empty-set commitment and nothing else. *)
Definition forged_original_genesis (nonce_value : Z) : header :=
  {| version := 0;
     parents := [];
     hashMerkleRoot := [];
     acceptedIDMerkleRoot := [];
     utxoCommitment := empty_muhash;
     timeInMilliseconds := 0;
     bits := 0;
     nonce := nonce_value;
     daaScore := 0;
     blueScore := 0;
     blueWork := [];
     pruningPoint := [];
     header_data := None;
     raw_data := None |}.

(** A sidecar map with the checkpoint header, whose pruning point is the
    original genesis. *)
Definition checkpoint_only : gmap bytes header :=
  {[ checkpoint_hash
       := CheckpointStore.make_header
            (plain_entry checkpoint_hash original_genesis) ]}.

(** [tips[0] if tips else hst], the start of the walk of step 5. *)
Definition chain_tip_of (t : list bytes * bytes) : bytes :=
  match fst t with
  | tip :: _ => tip
  | [] => snd t
  end.

(** A database with the genesis header, no tips record and an empty
    selected tip record. *)
Definition db_empty_selected_tip : gmap bytes bytes :=
  <[ DatabaseStorePrefixes.HEADERS :: genesis_hash
       := header_bytes_with_merkle_root genesis_hash ]>
    {[ [DatabaseStorePrefixes.HEADERS_SELECTED_TIP] := [] ]}.

(** [db_genesis_only] with a second tip and a selected tip record. *)
Definition db_genesis_more_tips (genesis_header_bytes : bytes)
  : gmap bytes bytes :=
  <[ [DatabaseStorePrefixes.HEADERS_SELECTED_TIP] := hash_b ]>
    (<[ [DatabaseStorePrefixes.TIPS] := le_bytes 8 2 ++ genesis_hash ++ hash_a ]>
       (db_genesis_only genesis_header_bytes)).

(** ** verify_kaspa_genesis.py: [main] *)

(** [str.endswith] and [str.startswith]; a [str] is held as its UTF-8
    bytes, on which both agree with Python for an ASCII argument. *)
Definition endswith (s suffix : string) : bool :=
  let n := String.length s in
  let m := String.length suffix in
  (m <=? n)%nat && String.eqb (String.substring (n - m) m s) suffix.

Definition startswith (s start : string) : bool := String.prefix start s.

(** One round of the loop of [posixpath.join]. *)
Definition join_component (path b : string) : string :=
  if startswith b "/" then b
  else if String.eqb path "" || endswith path "/" then (path ++ b)%string
  else (path ++ "/" ++ b)%string.

Definition os_path_join (a : string) (p : list string) : string :=
  fold_left join_component p a.

Inductive node_type := rust | go.

(** The namespace [parser.parse_args()] returns. *)
Record args := mk_args {
  args_node_type : node_type;
  args_datadir : string;
  args_pre_checkpoint_datadir : option string;
  args_verbose : bool
}.

(** How [parser.parse_args()] ends: argparse prints the usage and
    calls [sys.exit(2)] on arguments it does not accept, prints the help
    and calls [sys.exit(0)] on [-h] or [--help], and returns the
    namespace otherwise. *)
Inductive parse_outcome :=
| UsageError
| HelpPrinted
| ParsedArgs (a : args).

Section Main.

(** The argparse library, the file system and the user's home, as the
    run sees them, and [verify_genesis] as a function of the arguments
    [main] passes. *)
Variable parse_args : list string -> parse_outcome.
Variable expanduser : string -> string.
Variable path_exists : string -> bool.
Variable run_verify_genesis :
  node_type -> string -> option string -> bool -> bool.

(** The directory [main] hands to [verify_genesis]; [None] where it
    calls [sys.exit(1)] before. *)
Definition resolve_datadir (a : args) : option string :=
  let datadir := expanduser (args_datadir a) in
  if negb (path_exists datadir) then None
  else
    match args_node_type a with
    | rust =>
        if negb (endswith datadir "consensus-003") then
          let consensus_dir :=
            os_path_join datadir ["consensus"; "consensus-003"]%string in
          if path_exists consensus_dir then Some consensus_dir else None
        else Some datadir
    | go => Some datadir
    end.

(** The exit status of [main], from the command line [sys.argv[1:]]. *)
Definition main (argv : list string) : Z :=
  match parse_args argv with
  | UsageError => 2
  | HelpPrinted => 0
  | ParsedArgs a =>
      match resolve_datadir a with
      | None => 1
      | Some datadir =>
          exit_code (run_verify_genesis (args_node_type a) datadir
                       (args_pre_checkpoint_datadir a) (args_verbose a))
      end
  end.

End Main.

(** A file system with a Rust node's data directory. *)
Definition sample_exists (path : string) : bool :=
  String.eqb path "/node/datadir"
  || String.eqb path "/node/datadir/consensus/consensus-003".

Definition sample_args : args :=
  {| args_node_type := rust;
     args_datadir := "/node/datadir";
     args_pre_checkpoint_datadir := None;
     args_verbose := false |}.

(** A parser that knows three command lines. *)
Definition sample_parse_args (argv : list string) : parse_outcome :=
  match argv with
  | ["--help"%string] => HelpPrinted
  | ["--node-type"%string; "rust"%string; "--datadir"%string; datadir] =>
      ParsedArgs {| args_node_type := rust;
                args_datadir := datadir;
                args_pre_checkpoint_datadir := None;
                args_verbose := false |}
  | _ => UsageError
  end.

Definition sample_argv : list string :=
  ["--node-type"; "rust"; "--datadir"; "/node/datadir"]%string.

(** The header data of [one_parent_header_bytes] and the header the
    Rust store makes of it. *)
Definition one_parent_header_data : HeaderData.t :=
  {| HeaderData.hashMerkleRoot := repeat x00 32;
     HeaderData.acceptedIDMerkleRoot := repeat x00 32;
     HeaderData.utxoCommitment := repeat x00 32;
     HeaderData.pruningPoint := repeat x00 32;
     HeaderData.timeInMilliseconds := 0;
     HeaderData.bits := 0;
     HeaderData.nonce := 0;
     HeaderData.daaScore := 0;
     HeaderData.blueWork := repeat x00 24;
     HeaderData.blueScore := 0;
     HeaderData.version := 0;
     HeaderData.parents := [HashList [repeat x11 32]] |}.

Definition one_parent_header : header :=
  Store.ParsedHeader one_parent_header_data one_parent_header_bytes.

(** * Properties *)

(** ** Byte strings and [struct] *)

Lemma slice_length data a b :
  (b <= length data)%nat -> length (slice data a b) = (b - a)%nat.
Proof.
  intros Hb. unfold slice. rewrite length_take, length_drop. lia.
Qed.

Lemma slice_length_le data a b : (length (slice data a b) <= b - a)%nat.
Proof. unfold slice. rewrite length_take. lia. Qed.

(** A slice of full width lies inside the buffer. *)
Lemma slice_full_inside data a b :
  (a < b)%nat -> length (slice data a b) = (b - a)%nat ->
  (b <= length data)%nat.
Proof.
  unfold slice. rewrite length_take, length_drop. lia.
Qed.

Lemma slice_app_inside data extra a b :
  (b <= length data)%nat -> slice (data ++ extra) a b = slice data a b.
Proof.
  intros Hb. unfold slice.
  destruct (decide (a <= length data)%nat) as [Ha|Ha];
    [|by replace (b - a)%nat with 0%nat by lia].
  rewrite drop_app_le by lia.
  rewrite take_app_le; [done|]. rewrite length_drop. lia.
Qed.

Lemma slice_after_prefix pre mid post n :
  length mid = n ->
  slice (pre ++ mid ++ post) (length pre) (length pre + n) = mid.
Proof.
  intros <-. unfold slice. rewrite drop_app_length.
  replace (length pre + length mid - length pre)%nat with (length mid) by lia.
  apply take_app_length.
Qed.

Lemma Z_of_byte_of_Z v : Z_of_byte (byte_of_Z v) = v mod 256.
Proof.
  unfold Z_of_byte, byte_of_Z.
  assert (Hr : 0 <= v mod 256 < 256) by (apply Z.mod_pos_bound; lia).
  destruct (Byte.of_N (Z.to_N (v mod 256))) as [b|] eqn:Hb.
  - apply Byte.to_of_N in Hb. rewrite Hb. apply Z2N.id. lia.
  - apply Byte.of_N_None_iff in Hb. lia.
Qed.

Lemma length_le_bytes n v : length (le_bytes n v) = n.
Proof. revert v. induction n as [|n IH]; intros v; simpl; [done|]. by rewrite IH. Qed.

(** Unpacking what was packed gives the value back. *)
Lemma le_value_le_bytes n v :
  0 <= v < 2 ^ (8 * Z.of_nat n) -> le_value (le_bytes n v) = v.
Proof.
  revert v. induction n as [|n IH]; intros v Hv.
  - simpl in *. lia.
  - cbn [le_bytes le_value]. rewrite Z_of_byte_of_Z.
    assert (Hpow : 2 ^ (8 * Z.of_nat (Datatypes.S n)) = 256 * 2 ^ (8 * Z.of_nat n)).
    { replace (8 * Z.of_nat (Datatypes.S n)) with (8 + 8 * Z.of_nat n) by lia.
      rewrite Z.pow_add_r by lia. reflexivity. }
    rewrite IH.
    + pose proof (Z.div_mod v 256). lia.
    + split; [apply Z.div_pos; lia|].
      apply Z.div_lt_upper_bound; lia.
Qed.

Lemma struct_unpack_le_bytes f v :
  fmt_fits f v = true ->
  struct_unpack f (le_bytes (fmt_size f) v) = Return v.
Proof.
  intros Hfit. unfold struct_unpack.
  rewrite length_le_bytes, Nat.eqb_refl.
  f_equal. apply le_value_le_bytes.
  unfold fmt_fits in Hfit. apply andb_true_iff in Hfit as [H1 H2].
  apply Z.leb_le in H1. apply Z.ltb_lt in H2. lia.
Qed.

Lemma struct_unpack_Return f buf v :
  struct_unpack f buf = Return v -> length buf = fmt_size f /\ v = le_value buf.
Proof.
  unfold struct_unpack. destruct (length buf =? fmt_size f)%nat eqn:E; [|done].
  apply Nat.eqb_eq in E. intros [= <-]. done.
Qed.

(** The endianness example of the specification. *)
Example le_bytes_timestamp :
  le_bytes 8 0x0102030405060708 = [x08; x07; x06; x05; x04; x03; x02; x01].
Proof. reflexivity. Qed.

(** ** The bincode decoder *)

(** C9: an input that is [None], empty or shorter than 100 bytes leaves
    [deserialize_bincode_header] through its length guard: it returns
    [None], no exception is raised and no field is parsed. *)
Theorem deserialize_short_input_rejected (data : option bytes) :
  (forall d, data = Some d -> (length d < 100)%nat) ->
  deserialize_bincode_header_exit data = GuardRejected
  /\ deserialize_bincode_header data = None.
Proof.
  intros Hshort. unfold deserialize_bincode_header.
  assert (Hexit : deserialize_bincode_header_exit data = GuardRejected).
  { destruct data as [d|]; [|done]. simpl.
    specialize (Hshort d eq_refl).
    apply Nat.ltb_lt in Hshort. rewrite Hshort.
    by rewrite orb_true_r. }
  by rewrite Hexit.
Qed.

Lemma deserialize_short_input_rejected_witness :
  deserialize_bincode_header None = None
  /\ deserialize_bincode_header (Some []) = None
  /\ deserialize_bincode_header (Some (repeat xff 99)) = None.
Proof.
  split; [|split].
  - apply (deserialize_short_input_rejected None). intros d Hd. discriminate Hd.
  - apply (deserialize_short_input_rejected (Some [])).
    intros d [= <-]. simpl. lia.
  - apply (deserialize_short_input_rejected (Some (repeat xff 99))).
    intros d [= <-]. vm_compute. lia.
Defined.

(** ** The decoder: which reads are checked *)

Lemma read_inner_hashes_pos data pos count :
  snd (read_inner_hashes data pos count) = (pos + 32 * count)%nat.
Proof.
  revert pos. induction count as [|count IH]; intros pos; simpl; [lia|].
  specialize (IH (pos + 32)%nat).
  destruct (read_inner_hashes data (pos + 32) count) as [rest pos'].
  simpl in *. lia.
Qed.

Lemma read_inner_hashes_app data extra pos count :
  (pos + 32 * count <= length data)%nat ->
  read_inner_hashes (data ++ extra) pos count
  = read_inner_hashes data pos count.
Proof.
  revert pos. induction count as [|count IH]; intros pos Hin; [done|].
  cbn [read_inner_hashes]. rewrite IH by lia.
  by rewrite slice_app_inside by lia.
Qed.

Lemma read_parents_by_level_pos data pos count levels pos' :
  read_parents_by_level data pos count = Return (levels, pos') ->
  (pos <= pos')%nat /\ length levels = count.
Proof.
  revert pos levels pos'.
  induction count as [|count IH]; intros pos levels pos' Hread.
  - injection Hread as <- <-. done.
  - cbn [read_parents_by_level] in Hread.
    destruct (struct_unpack Q (slice data pos (pos + 8))) as [inner_len|];
      [|done].
    cbn [obind] in Hread.
    pose proof (read_inner_hashes_pos data (pos + 8) (Z.to_nat inner_len))
      as Hpos.
    destruct (read_inner_hashes data (pos + 8) (Z.to_nat inner_len))
      as [inner pos1].
    destruct (read_parents_by_level data pos1 count) as [[rest pos2]|] eqn:Hrest;
      [|done].
    injection Hread as <- <-.
    apply IH in Hrest as [Hle Hlen]. simpl in *. lia.
Qed.

(** Parent levels that end inside the buffer are read the same with
    bytes appended. *)
Lemma read_parents_by_level_app data extra pos count levels pos' :
  read_parents_by_level data pos count = Return (levels, pos') ->
  (pos' <= length data)%nat ->
  read_parents_by_level (data ++ extra) pos count = Return (levels, pos').
Proof.
  revert pos levels pos'.
  induction count as [|count IH]; intros pos levels pos' Hread Hin; [done|].
  cbn [read_parents_by_level] in *.
  destruct (struct_unpack Q (slice data pos (pos + 8))) as [inner_len|]
    eqn:Hcount; [|done].
  cbn [obind] in Hread.
  pose proof (read_inner_hashes_pos data (pos + 8) (Z.to_nat inner_len))
    as Hpos.
  destruct (read_inner_hashes data (pos + 8) (Z.to_nat inner_len))
    as [inner pos1] eqn:Hinner.
  destruct (read_parents_by_level data pos1 count) as [[rest pos2]|] eqn:Hrest;
    [|done].
  injection Hread as <- <-.
  pose proof (read_parents_by_level_pos _ _ _ _ _ Hrest) as [Hle _].
  simpl in Hpos.
  rewrite slice_app_inside by lia. rewrite Hcount. cbn [obind].
  rewrite read_inner_hashes_app by lia. rewrite Hinner.
  by rewrite (IH _ _ _ Hrest Hin).
Qed.

(** What a successful parse has read: every integer field, and with
    them every field before the pruning point, lies inside the buffer;
    the pruning point is whatever the buffer holds from its offset on,
    up to 32 bytes. *)
Lemma parse_header_fields_inv data h :
  parse_header_fields data = Return h ->
  exists outer_len levels pos,
    struct_unpack Q (slice data 34 42) = Return outer_len
    /\ read_parents_by_level data 42 (Z.to_nat outer_len) = Return (levels, pos)
    /\ (pos + 156 <= length data)%nat
    /\ h = {|
         HeaderData.hashMerkleRoot := slice data pos (pos + 32);
         HeaderData.acceptedIDMerkleRoot := slice data (pos + 32) (pos + 64);
         HeaderData.utxoCommitment := slice data (pos + 64) (pos + 96);
         HeaderData.pruningPoint := slice data (pos + 156) (pos + 188);
         HeaderData.timeInMilliseconds := le_value (slice data (pos + 96) (pos + 104));
         HeaderData.bits := le_value (slice data (pos + 104) (pos + 108));
         HeaderData.nonce := le_value (slice data (pos + 108) (pos + 116));
         HeaderData.daaScore := le_value (slice data (pos + 116) (pos + 124));
         HeaderData.blueWork := slice data (pos + 124) (pos + 148);
         HeaderData.blueScore := le_value (slice data (pos + 148) (pos + 156));
         HeaderData.version := le_value (slice data 32 34);
         HeaderData.parents := map HashList levels
       |}.
Proof.
  unfold parse_header_fields. cbn zeta. cbn [Nat.add].
  destruct (struct_unpack H (slice data 32 34)) as [version|] eqn:Hversion;
    [|done].
  destruct (struct_unpack Q (slice data 34 42)) as [outer_len|] eqn:Houter;
    [|done].
  cbn [obind].
  destruct (read_parents_by_level data 42 (Z.to_nat outer_len))
    as [[levels pos]|] eqn:Hlevels; [|done].
  cbn [obind].
  replace (pos + 32 + 32)%nat with (pos + 64)%nat by lia.
  replace (pos + 64 + 32)%nat with (pos + 96)%nat by lia.
  replace (pos + 96 + 8)%nat with (pos + 104)%nat by lia.
  replace (pos + 104 + 4)%nat with (pos + 108)%nat by lia.
  replace (pos + 108 + 8)%nat with (pos + 116)%nat by lia.
  replace (pos + 116 + 8)%nat with (pos + 124)%nat by lia.
  replace (pos + 124 + 24)%nat with (pos + 148)%nat by lia.
  replace (pos + 148 + 8)%nat with (pos + 156)%nat by lia.
  replace (pos + 156 + 32)%nat with (pos + 188)%nat by lia.
  destruct (struct_unpack Q (slice data (pos + 96) (pos + 104)))
    as [timestamp|] eqn:Htime; [|done].
  destruct (struct_unpack I (slice data (pos + 104) (pos + 108)))
    as [bits|] eqn:Hbits; [|done].
  destruct (struct_unpack Q (slice data (pos + 108) (pos + 116)))
    as [nonce|] eqn:Hnonce; [|done].
  destruct (struct_unpack Q (slice data (pos + 116) (pos + 124)))
    as [daa_score|] eqn:Hdaa; [|done].
  destruct (struct_unpack Q (slice data (pos + 148) (pos + 156)))
    as [blue_score|] eqn:Hblue; [|done].
  cbn [obind]. intros [= <-].
  exists outer_len, levels, pos. split; [done|]. split; [done|].
  apply struct_unpack_Return in Hversion as [_ ->].
  apply struct_unpack_Return in Htime as [_ ->].
  apply struct_unpack_Return in Hbits as [_ ->].
  apply struct_unpack_Return in Hnonce as [_ ->].
  apply struct_unpack_Return in Hdaa as [_ ->].
  apply struct_unpack_Return in Hblue as [Hwidth ->].
  split; [|done].
  apply (slice_full_inside data (pos + 148) (pos + 156)); [lia|].
  rewrite Hwidth. simpl. lia.
Qed.

Lemma struct_unpack_inside f data a b :
  (b <= length data)%nat -> (b - a)%nat = fmt_size f ->
  struct_unpack f (slice data a b) = Return (le_value (slice data a b)).
Proof.
  intros Hb Hwidth. unfold struct_unpack.
  rewrite slice_length by done. by rewrite Hwidth, Nat.eqb_refl.
Qed.

(** The converse: when every integer field lies inside the buffer, the
    parse succeeds, however short the pruning point comes out. *)
Lemma parse_header_fields_intro data outer_len levels pos :
  struct_unpack Q (slice data 34 42) = Return outer_len ->
  read_parents_by_level data 42 (Z.to_nat outer_len) = Return (levels, pos) ->
  (pos + 156 <= length data)%nat ->
  parse_header_fields data
  = Return {|
      HeaderData.hashMerkleRoot := slice data pos (pos + 32);
      HeaderData.acceptedIDMerkleRoot := slice data (pos + 32) (pos + 64);
      HeaderData.utxoCommitment := slice data (pos + 64) (pos + 96);
      HeaderData.pruningPoint := slice data (pos + 156) (pos + 188);
      HeaderData.timeInMilliseconds := le_value (slice data (pos + 96) (pos + 104));
      HeaderData.bits := le_value (slice data (pos + 104) (pos + 108));
      HeaderData.nonce := le_value (slice data (pos + 108) (pos + 116));
      HeaderData.daaScore := le_value (slice data (pos + 116) (pos + 124));
      HeaderData.blueWork := slice data (pos + 124) (pos + 148);
      HeaderData.blueScore := le_value (slice data (pos + 148) (pos + 156));
      HeaderData.version := le_value (slice data 32 34);
      HeaderData.parents := map HashList levels
    |}.
Proof.
  intros Houter Hlevels Hin.
  pose proof (read_parents_by_level_pos _ _ _ _ _ Hlevels) as [Hpos _].
  unfold parse_header_fields. cbn zeta. cbn [Nat.add].
  rewrite (struct_unpack_inside H data 32 34) by (simpl; lia).
  rewrite Houter. cbn [obind]. rewrite Hlevels. cbn [obind].
  replace (pos + 32 + 32)%nat with (pos + 64)%nat by lia.
  replace (pos + 64 + 32)%nat with (pos + 96)%nat by lia.
  replace (pos + 96 + 8)%nat with (pos + 104)%nat by lia.
  replace (pos + 104 + 4)%nat with (pos + 108)%nat by lia.
  replace (pos + 108 + 8)%nat with (pos + 116)%nat by lia.
  replace (pos + 116 + 8)%nat with (pos + 124)%nat by lia.
  replace (pos + 124 + 24)%nat with (pos + 148)%nat by lia.
  replace (pos + 148 + 8)%nat with (pos + 156)%nat by lia.
  replace (pos + 156 + 32)%nat with (pos + 188)%nat by lia.
  rewrite (struct_unpack_inside Q data (pos + 96) (pos + 104)) by (simpl; lia).
  rewrite (struct_unpack_inside I data (pos + 104) (pos + 108)) by (simpl; lia).
  rewrite (struct_unpack_inside Q data (pos + 108) (pos + 116)) by (simpl; lia).
  rewrite (struct_unpack_inside Q data (pos + 116) (pos + 124)) by (simpl; lia).
  rewrite (struct_unpack_inside Q data (pos + 148) (pos + 156)) by (simpl; lia).
  reflexivity.
Qed.

(** A header is returned exactly when the guard passes and the parse
    succeeds. *)
Lemma deserialize_Some data h :
  deserialize_bincode_header (Some data) = Some h
  <-> (100 <= length data)%nat /\ parse_header_fields data = Return h.
Proof.
  unfold deserialize_bincode_header, deserialize_bincode_header_exit.
  destruct (bool_decide (data = [])) eqn:Hnil.
  - apply bool_decide_eq_true_1 in Hnil. subst data. simpl.
    split; [done|]. intros [Hlen _]. simpl in Hlen. lia.
  - cbn [orb]. destruct (length data <? 100)%nat eqn:Hlen.
    + apply Nat.ltb_lt in Hlen. split; [done|lia].
    + apply Nat.ltb_ge in Hlen.
      destruct (parse_header_fields data) as [h'|e]; simpl.
      * split; [by intros [= ->]|by intros [_ [= ->]]].
      * split; [done|by intros [_ ?]].
Qed.

(** The decoder never accepts fewer than 198 bytes: the integer fields
    of a header without parents end at offset 198. *)
Lemma deserialize_needs_198_bytes data h :
  deserialize_bincode_header (Some data) = Some h -> (198 <= length data)%nat.
Proof.
  intros Hdec. apply deserialize_Some in Hdec as [_ Hparse].
  apply parse_header_fields_inv in Hparse
    as (outer_len & levels & pos & _ & Hlevels & Hin & _).
  apply read_parents_by_level_pos in Hlevels as [Hpos _]. lia.
Qed.

(** Every field before the pruning point has its full width. *)
Lemma deserialize_field_widths data h :
  deserialize_bincode_header (Some data) = Some h ->
  length (HeaderData.hashMerkleRoot h) = 32%nat
  /\ length (HeaderData.acceptedIDMerkleRoot h) = 32%nat
  /\ length (HeaderData.utxoCommitment h) = 32%nat
  /\ length (HeaderData.blueWork h) = 24%nat
  /\ (length (HeaderData.pruningPoint h) <= 32)%nat.
Proof.
  intros Hdec. apply deserialize_Some in Hdec as [_ Hparse].
  apply parse_header_fields_inv in Hparse
    as (outer_len & levels & pos & _ & _ & Hin & ->).
  cbn [HeaderData.hashMerkleRoot HeaderData.acceptedIDMerkleRoot
       HeaderData.utxoCommitment HeaderData.blueWork HeaderData.pruningPoint].
  rewrite !slice_length by lia.
  repeat split; try lia.
  pose proof (slice_length_le data (pos + 156) (pos + 188)). lia.
Qed.

(** X1: unknown trailing bytes after a complete pruning point are ignored. *)
Lemma deserialize_ignores_trailing_bytes data extra h :
  deserialize_bincode_header (Some data) = Some h ->
  length (HeaderData.pruningPoint h) = 32%nat ->
  deserialize_bincode_header (Some (data ++ extra)) = Some h.
Proof.
  intros Hdec Hpp. apply deserialize_Some in Hdec as [Hlen Hparse].
  apply deserialize_Some. split; [rewrite length_app; lia|].
  apply parse_header_fields_inv in Hparse
    as (outer_len & levels & pos & Houter & Hlevels & Hin & ->).
  cbn [HeaderData.pruningPoint] in Hpp.
  assert (Hend : (pos + 188 <= length data)%nat).
  { apply (slice_full_inside data (pos + 156) (pos + 188)); [lia|].
    rewrite Hpp. lia. }
  pose proof (read_parents_by_level_pos _ _ _ _ _ Hlevels) as [Hpos _].
  rewrite (parse_header_fields_intro (data ++ extra) outer_len levels pos).
  - by rewrite !slice_app_inside by lia.
  - by rewrite slice_app_inside by lia.
  - apply read_parents_by_level_app; [done|lia].
  - rewrite length_app. lia.
Qed.

(** A record of 230 zero bytes is a complete header without parents. *)
Example zero_header_decodes :
  deserialize_bincode_header (Some zero_header_bytes) = Some zero_header_data.
Proof. vm_compute. reflexivity. Qed.

Lemma deserialize_ignores_trailing_bytes_witness :
  deserialize_bincode_header (Some (zero_header_bytes ++ [xff; xfe]))
  = Some zero_header_data.
Proof.
  apply (deserialize_ignores_trailing_bytes zero_header_bytes [xff; xfe]
           zero_header_data).
  - vm_compute. reflexivity.
  - reflexivity.
Defined.

(** ** The decoder: the stored self-hash is not read *)

Lemma slice_prefix_irrelevant (p p' r : bytes) a b :
  length p = length p' -> (length p <= a)%nat ->
  slice (p ++ r) a b = slice (p' ++ r) a b.
Proof.
  intros Hlen Ha. unfold slice.
  rewrite !drop_app_ge by lia. by rewrite Hlen.
Qed.

Lemma read_inner_hashes_prefix (p p' r : bytes) pos count :
  length p = length p' -> (length p <= pos)%nat ->
  read_inner_hashes (p ++ r) pos count = read_inner_hashes (p' ++ r) pos count.
Proof.
  intros Hlen. revert pos. induction count as [|count IH]; intros pos Hpos;
    [done|].
  cbn [read_inner_hashes]. rewrite IH by lia.
  by rewrite (slice_prefix_irrelevant p p') by done.
Qed.

Lemma read_parents_by_level_prefix (p p' r : bytes) pos count :
  length p = length p' -> (length p <= pos)%nat ->
  read_parents_by_level (p ++ r) pos count
  = read_parents_by_level (p' ++ r) pos count.
Proof.
  intros Hlen. revert pos. induction count as [|count IH]; intros pos Hpos;
    [done|].
  cbn [read_parents_by_level].
  rewrite (slice_prefix_irrelevant p p') by done.
  destruct (struct_unpack Q (slice (p' ++ r) pos (pos + 8))) as [inner_len|];
    [|done].
  cbn [obind].
  rewrite (read_inner_hashes_prefix p p') by (done || lia).
  pose proof (read_inner_hashes_pos (p' ++ r) (pos + 8) (Z.to_nat inner_len))
    as Hpos1.
  destruct (read_inner_hashes (p' ++ r) (pos + 8) (Z.to_nat inner_len))
    as [inner pos1].
  simpl in Hpos1. by rewrite IH by lia.
Qed.

(** X2: the first 32 bytes of a stored header, its self-hash, do not
    reach the decoded header: two records that differ only there decode
    alike. *)
Lemma deserialize_ignores_stored_hash (stored_hash stored_hash' rest : bytes) :
  length stored_hash = 32%nat -> length stored_hash' = 32%nat ->
  deserialize_bincode_header (Some (stored_hash ++ rest))
  = deserialize_bincode_header (Some (stored_hash' ++ rest)).
Proof.
  intros Hlen Hlen'.
  assert (Hparse : parse_header_fields (stored_hash ++ rest)
                   = parse_header_fields (stored_hash' ++ rest)).
  { unfold parse_header_fields. cbn zeta. cbn [Nat.add].
    rewrite (slice_prefix_irrelevant stored_hash stored_hash' rest 32 34),
      (slice_prefix_irrelevant stored_hash stored_hash' rest 34 42) by lia.
    destruct (struct_unpack H (slice (stored_hash' ++ rest) 32 34)); [|done].
    destruct (struct_unpack Q (slice (stored_hash' ++ rest) 34 42))
      as [outer_len|]; [|done].
    cbn [obind].
    rewrite (read_parents_by_level_prefix stored_hash stored_hash') by lia.
    destruct (read_parents_by_level (stored_hash' ++ rest) 42
                (Z.to_nat outer_len)) as [[levels pos]|] eqn:Hlevels; [|done].
    apply read_parents_by_level_pos in Hlevels as [Hpos _].
    cbn [obind].
    by rewrite !(slice_prefix_irrelevant stored_hash stored_hash' rest) by lia. }
  unfold deserialize_bincode_header, deserialize_bincode_header_exit.
  rewrite Hparse, !length_app, Hlen, Hlen'.
  destruct stored_hash; [done|]. by destruct stored_hash'.
Qed.

Lemma deserialize_ignores_stored_hash_witness :
  deserialize_bincode_header (Some (repeat x00 32 ++ repeat x00 198))
  = deserialize_bincode_header (Some (repeat xff 32 ++ repeat x00 198)).
Proof.
  apply (deserialize_ignores_stored_hash (repeat x00 32) (repeat xff 32)
           (repeat x00 198)); reflexivity.
Defined.

(** C6 (the code departs from the claim): on a 200-byte buffer the
    32-byte [pruning_point] field starts at offset 198 and runs past the
    end, yet the decoder returns a header, whose pruning point is the two
    bytes that were left. *)
Theorem deserialize_truncated_pruning_point :
  exists h,
    deserialize_bincode_header (Some (repeat x00 200)) = Some h
    /\ HeaderData.pruningPoint h = [x00; x00]
    /\ length (HeaderData.hashMerkleRoot h) = 32%nat.
Proof.
  eexists. split; [vm_compute; reflexivity|]. split; reflexivity.
Qed.

(** ** The accessors of [Store] *)

Lemma first32_take value : Store.first32 value = take 32 value.
Proof.
  unfold Store.first32, slice.
  destruct (32 <=? length value)%nat eqn:E.
  - by rewrite drop_0.
  - apply Nat.leb_gt in E. symmetry. apply take_ge. lia.
Qed.

(** C7, counterexample: with the database open and no PRUNING_POINT
    record, [pruning_point()] returns the empty byte string, not 32 zero
    bytes. *)
Lemma pruning_point_absent_counterexample :
  Store.usable_db (opened_store ∅) = Some ∅
  /\ (∅ : gmap bytes bytes) !! Store._build_key DatabaseStorePrefixes.PRUNING_POINT [] = None
  /\ fst (Store.pruning_point (opened_store ∅)) = []
  /\ fst (Store.pruning_point (opened_store ∅)) <> Store.zero_hash.
Proof. repeat split; discriminate. Qed.

(** C7, amended: when the PRUNING_POINT record is absent the accessor
    returns the empty byte string; when it is present it returns the
    first 32 bytes of the stored value. *)
Theorem pruning_point_accessor (self : Store.t) (d : gmap bytes bytes) :
  Store.usable_db self = Some d ->
  (d !! Store._build_key DatabaseStorePrefixes.PRUNING_POINT [] = None ->
     fst (Store.pruning_point self) = [])
  /\ (forall v, d !! Store._build_key DatabaseStorePrefixes.PRUNING_POINT [] = Some v ->
        fst (Store.pruning_point self) = take 32 v).
Proof.
  intros Hdb. unfold Store.pruning_point. rewrite Hdb. cbv zeta. split.
  - intros Hnone. by rewrite Hnone.
  - intros v Hsome. rewrite Hsome. simpl. apply first32_take.
Qed.

Lemma pruning_point_accessor_witness :
  fst (Store.pruning_point (opened_store db_pruning_point)) = repeat x07 32.
Proof.
  apply (proj2 (pruning_point_accessor (opened_store db_pruning_point)
                  db_pruning_point eq_refl) (repeat x07 40)).
  vm_compute. reflexivity.
Defined.

(** Reading back a well-formed tips vector. *)
Lemma read_tips_concat pre hashes extra :
  Forall (fun h : bytes => length h = 32%nat) hashes ->
  Store.read_tips (pre ++ concat hashes ++ extra) (length pre) (length hashes)
  = hashes.
Proof.
  revert pre. induction hashes as [|h hs IH]; intros pre Hall; [done|].
  apply Forall_cons in Hall as [Hh Hhs].
  cbn [Store.read_tips length concat]. rewrite <- (app_assoc h).
  assert (Hfits : (length pre + 32 <=? length (pre ++ h ++ concat hs ++ extra))%nat
                  = true).
  { apply Nat.leb_le. rewrite !length_app. lia. }
  rewrite Hfits, slice_after_prefix by done. f_equal.
  specialize (IH (pre ++ h) Hhs).
  rewrite length_app, Hh, <- app_assoc in IH. exact IH.
Qed.

(** The selected-tip component does not depend on the TIPS record. *)
Lemma tips_selected_tip (self : Store.t) (d : gmap bytes bytes) :
  Store.usable_db self = Some d ->
  snd (fst (Store.tips self))
  = match d !! Store._build_key DatabaseStorePrefixes.HEADERS_SELECTED_TIP [] with
    | None => Store.zero_hash
    | Some v => take 32 v
    end.
Proof.
  intros Hdb. unfold Store.tips. rewrite Hdb. cbv zeta.
  assert (Hhst :
    match d !! Store._build_key DatabaseStorePrefixes.HEADERS_SELECTED_TIP [] with
    | None => Store.zero_hash
    | Some hst_bytes => Store.first32 hst_bytes
    end
    = match d !! Store._build_key DatabaseStorePrefixes.HEADERS_SELECTED_TIP [] with
      | None => Store.zero_hash
      | Some v => take 32 v
      end).
  { destruct (d !! Store._build_key DatabaseStorePrefixes.HEADERS_SELECTED_TIP []);
      [apply first32_take|done]. }
  rewrite <- Hhst.
  destruct (d !! Store._build_key DatabaseStorePrefixes.TIPS []) as [tips_bytes|]; [|done].
  destruct (8 <=? length tips_bytes)%nat; [|done].
  by destruct (struct_unpack Q (slice tips_bytes 0 8)).
Qed.

(** C8, counterexample: with a selected tip stored and no TIPS record,
    [tips()] returns the stored selected tip, not the zero hash; with a
    TIPS record and no selected tip it returns the decoded tips, not the
    empty sequence. *)
Lemma tips_one_record_missing_counterexample :
  db_only_selected_tip !! Store._build_key DatabaseStorePrefixes.TIPS [] = None
  /\ fst (Store.tips (opened_store db_only_selected_tip)) = ([], repeat x01 32)
  /\ fst (Store.tips (opened_store db_only_selected_tip))
     <> ([], Store.zero_hash)
  /\ db_only_tips !! Store._build_key DatabaseStorePrefixes.HEADERS_SELECTED_TIP [] = None
  /\ fst (Store.tips (opened_store db_only_tips))
     = ([repeat x02 32], Store.zero_hash)
  /\ fst (Store.tips (opened_store db_only_tips)) <> ([], Store.zero_hash).
Proof.
  assert (H1 : fst (Store.tips (opened_store db_only_selected_tip))
               = ([], repeat x01 32)) by (vm_compute; reflexivity).
  assert (H2 : fst (Store.tips (opened_store db_only_tips))
               = ([repeat x02 32], Store.zero_hash)) by (vm_compute; reflexivity).
  rewrite H1, H2.
  repeat split; try (vm_compute; reflexivity); discriminate.
Qed.

(** C8, amended: with the database open, the selected-tip component is
    the zero hash when the HEADERS_SELECTED_TIP record is missing and the
    first 32 bytes of the stored value otherwise; the tips component is
    empty when the TIPS record is missing, and the decoded vector (u64 LE
    count, then that many 32-byte hashes) when it is present. *)
Theorem tips_accessor (self : Store.t) (d : gmap bytes bytes) :
  Store.usable_db self = Some d ->
  (d !! Store._build_key DatabaseStorePrefixes.HEADERS_SELECTED_TIP [] = None ->
     snd (fst (Store.tips self)) = Store.zero_hash)
  /\ (forall v : bytes,
        d !! Store._build_key DatabaseStorePrefixes.HEADERS_SELECTED_TIP [] = Some v ->
        snd (fst (Store.tips self)) = take 32 v)
  /\ (d !! Store._build_key DatabaseStorePrefixes.TIPS [] = None ->
        fst (fst (Store.tips self)) = [])
  /\ (forall (hashes : list bytes) (extra : bytes),
        Forall (fun h : bytes => length h = 32%nat) hashes ->
        len hashes < 2 ^ 64 ->
        d !! Store._build_key DatabaseStorePrefixes.TIPS []
        = Some (le_bytes 8 (len hashes) ++ concat hashes ++ extra) ->
        fst (fst (Store.tips self)) = hashes).
Proof.
  intros Hdb. pose proof (tips_selected_tip self d Hdb) as Hhst.
  split; [|split; [|split]].
  - intros Hnone. by rewrite Hhst, Hnone.
  - intros v Hsome. by rewrite Hhst, Hsome.
  - intros Hnone. unfold Store.tips. rewrite Hdb. cbv zeta. by rewrite Hnone.
  - intros hashes extra Hall Hcount Htips.
    unfold Store.tips. rewrite Hdb. cbv zeta. rewrite Htips.
    assert (Hlen : (8 <=? length (le_bytes 8 (len hashes)
                                  ++ concat hashes ++ extra))%nat = true).
    { apply Nat.leb_le. rewrite length_app, length_le_bytes. lia. }
    rewrite Hlen.
    assert (Hhead : slice (le_bytes 8 (len hashes) ++ concat hashes ++ extra) 0 8
                    = le_bytes 8 (len hashes)).
    { unfold slice. rewrite drop_0. apply take_app_length'.
      by rewrite length_le_bytes. }
    rewrite Hhead.
    assert (Hcnt : struct_unpack Q (le_bytes 8 (len hashes))
                   = Return (len hashes)).
    { apply (struct_unpack_le_bytes Q).
      unfold fmt_fits, len in *. apply andb_true_iff. split.
      - apply Z.leb_le. lia.
      - apply Z.ltb_lt. simpl. lia. }
    rewrite Hcnt. cbn [fst]. unfold len. rewrite Nat2Z.id.
    pose proof (read_tips_concat (le_bytes 8 (Z.of_nat (length hashes)))
                  hashes extra Hall) as Hread.
    rewrite length_le_bytes in Hread. exact Hread.
Qed.

Lemma tips_accessor_witness :
  fst (fst (Store.tips (opened_store db_only_tips))) = [repeat x02 32]
  /\ snd (fst (Store.tips (opened_store db_only_tips))) = Store.zero_hash.
Proof.
  destruct (tips_accessor (opened_store db_only_tips) db_only_tips eq_refl)
    as (Hzero & _ & _ & Hdecode).
  split.
  - apply (Hdecode [repeat x02 32] []).
    + repeat constructor.
    + vm_compute. reflexivity.
    + vm_compute. reflexivity.
  - apply Hzero. vm_compute. reflexivity.
Defined.

(** ** The header cache of [Store.get_header_data] *)

(** A lookup that finds no header leaves the store as it was. *)
Lemma get_header_data_None self block_hash self1 reads :
  Store.get_header_data self block_hash = ((None, self1), reads) ->
  self1 = self.
Proof.
  unfold Store.get_header_data.
  destruct (Store.headers self !! block_hash); [intros [= <-]; done|].
  destruct (Store.get_raw_header self block_hash) as [[raw|] rs];
    [|by intros [= <- _]].
  by destruct (header_data raw).
Qed.

(** A lookup that finds a header leaves it in the cache. *)
Lemma get_header_data_Some self block_hash h self1 reads :
  Store.get_header_data self block_hash = ((Some h, self1), reads) ->
  Store.headers self1 !! block_hash = Some h.
Proof.
  unfold Store.get_header_data.
  destruct (Store.headers self !! block_hash) as [h0|] eqn:Hhit.
  { by intros [= <- <- _]. }
  destruct (Store.get_raw_header self block_hash) as [[raw|] rs]; [|done].
  destruct (header_data raw).
  - intros [= <- <- _]. apply lookup_insert_eq.
  - intros [= <- <- _]. apply lookup_insert_eq.
Qed.

(** C10, counterexample: when the database holds no header under the
    hash, the first call caches nothing and the second call reads the
    database again. *)
Lemma get_header_data_miss_counterexample :
  Store.get_header_data (opened_store ∅) sample_key
  = ((None, opened_store ∅), [DatabaseStorePrefixes.HEADERS :: sample_key])
  /\ snd (Store.get_header_data
            (snd (fst (Store.get_header_data (opened_store ∅) sample_key)))
            sample_key)
     = [DatabaseStorePrefixes.HEADERS :: sample_key]
  /\ [DatabaseStorePrefixes.HEADERS :: sample_key] <> ([] : list bytes).
Proof. repeat split; discriminate. Qed.

(** C10, amended: a second call of [get_header_data] with the same hash
    returns the same value as the first and leaves the store as the first
    call left it; when the first call returned a header, the second call
    answers from the cache without reading the database; when the first
    call returned [None], nothing was cached and the second call repeats
    the database reads of the first. *)
Theorem get_header_data_second_call self block_hash r1 self1 reads1 :
  Store.get_header_data self block_hash = ((r1, self1), reads1) ->
  exists reads2,
    Store.get_header_data self1 block_hash = ((r1, self1), reads2)
    /\ (is_Some r1 -> reads2 = [])
    /\ (r1 = None -> reads2 = reads1).
Proof.
  intros Hfirst. destruct r1 as [h|].
  - exists []. split; [|split; [done|discriminate]].
    apply get_header_data_Some in Hfirst.
    unfold Store.get_header_data. by rewrite Hfirst.
  - exists reads1. pose proof (get_header_data_None _ _ _ _ Hfirst) as ->.
    split; [done|]. split; [|done]. by intros [? [=]].
Qed.

Lemma get_header_data_second_call_witness :
  exists reads2,
    Store.get_header_data
      (snd (fst (Store.get_header_data (opened_store db_one_header) sample_key)))
      sample_key
    = (fst (Store.get_header_data (opened_store db_one_header) sample_key),
       reads2)
    /\ (is_Some (fst (fst (Store.get_header_data (opened_store db_one_header)
                             sample_key))) -> reads2 = [])
    /\ (fst (fst (Store.get_header_data (opened_store db_one_header)
                    sample_key)) = None ->
        reads2 = [DatabaseStorePrefixes.HEADERS :: sample_key]).
Proof.
  apply (get_header_data_second_call (opened_store db_one_header) sample_key
           (fst (fst (Store.get_header_data (opened_store db_one_header)
                        sample_key)))
           (snd (fst (Store.get_header_data (opened_store db_one_header)
                        sample_key)))
           [DatabaseStorePrefixes.HEADERS :: sample_key]).
  vm_compute. reflexivity.
Defined.

(** The sample lookup does find a header, so the witness above is about
    the cached case. *)
Example sample_lookup_finds_header :
  is_Some (fst (fst (Store.get_header_data (opened_store db_one_header)
                       sample_key))).
Proof. vm_compute. eexists. reflexivity. Qed.

(** ** The hashers *)

Lemma struct_pack_fits f v rest :
  fmt_fits f v = true ->
  struct_pack ((f, v) :: rest)
  = (do tl <- struct_pack rest ;; Return (le_bytes (fmt_size f) v ++ tl)).
Proof. intros Hfit. simpl. by rewrite Hfit. Qed.

Lemma fmt_fits_range f v :
  0 <= v < 2 ^ (8 * Z.of_nat (fmt_size f)) -> fmt_fits f v = true.
Proof.
  intros [Hlo Hhi]. unfold fmt_fits. apply andb_true_iff. split.
  - by apply Z.leb_le.
  - by apply Z.ltb_lt.
Qed.

Lemma len_nonneg {A} (l : list A) : 0 <= len l.
Proof. unfold len. lia. Qed.

Section HasherFacts.

Variable blake2b : nat -> bytes -> bytes -> bytes.

Lemma update_update hs a b : update (update hs a) b = update hs (a ++ b).
Proof. unfold update. simpl. by rewrite app_assoc. Qed.

Lemma update_nil hs : update hs [] = hs.
Proof. destruct hs. unfold update. simpl. by rewrite app_nil_r. Qed.

(** Feeding a list of byte strings one by one feeds their concatenation. *)
Lemma fold_left_update chunks hs :
  fold_left update chunks hs = update hs (concat chunks).
Proof.
  revert hs. induction chunks as [|c cs IH]; intros hs; simpl.
  - by rewrite update_nil.
  - by rewrite IH, update_update.
Qed.

(** The loop over well-typed parent levels never raises and feeds, per
    level, the count and then the hashes. *)
Lemma for_each_hash_level levels hs :
  Forall (fun level : list bytes => len level < 2 ^ 64) levels ->
  for_each hash_level hs (map ParentLevel levels)
  = Return (update hs
              (concat (map (fun level => le_bytes 8 (len level) ++ concat level)
                         levels))).
Proof.
  revert hs. induction levels as [|level rest IH]; intros hs Hall.
  - simpl. by rewrite update_nil.
  - apply Forall_cons in Hall as [Hlevel Hrest].
    cbn [map for_each hash_level].
    rewrite struct_pack_fits
      by (apply fmt_fits_range; pose proof (len_nonneg level); simpl; lia).
    cbn [struct_pack obind]. rewrite app_nil_r.
    rewrite fold_left_update, update_update.
    rewrite IH by done. rewrite update_update.
    cbn [map concat]. by rewrite <- app_assoc.
Qed.

(** Headers as [store_rust.Store.get_raw_header] builds them keep their
    parent levels as plain lists: with one level or more,
    [header_hash] raises instead of hashing. *)
Lemma header_hash_plain_list_level h hashes rest :
  parents h = HashList hashes :: rest ->
  0 <= version h < 2 ^ 16 ->
  len (parents h) < 2 ^ 64 ->
  header_hash blake2b h = Raise AttributeError.
Proof.
  intros Hparents Hversion Hcount. unfold header_hash.
  rewrite struct_pack_fits by (apply fmt_fits_range; simpl; lia).
  rewrite struct_pack_fits
    by (apply fmt_fits_range; pose proof (len_nonneg (parents h)); simpl; lia).
  cbn [struct_pack obind]. by rewrite Hparents.
Qed.

End HasherFacts.

Lemma length_concat_hashes (level : list bytes) :
  Forall (fun p : bytes => length p = 32%nat) level ->
  length (concat level) = (32 * length level)%nat.
Proof.
  induction 1 as [|p ps Hp _ IH]; [done|].
  cbn [concat length]. rewrite length_app, Hp, IH. lia.
Qed.

Lemma length_levels levels :
  Forall (fun level : list bytes =>
            len level < 2 ^ 64
            /\ Forall (fun p : bytes => length p = 32%nat) level) levels ->
  length (concat (map (fun level => le_bytes 8 (len level) ++ concat level)
                    levels))
  = levels_size levels.
Proof.
  induction 1 as [|level rest [_ Hlevel] _ IH]; [done|].
  cbn [map concat levels_size fold_right].
  rewrite !length_app, length_le_bytes, length_concat_hashes by done.
  unfold levels_size in IH. rewrite IH. lia.
Qed.

Section HeaderHash.

Variable blake2b : nat -> bytes -> bytes -> bytes.

(** Where the preimage is the specified one: for every header whose
    parent levels are objects with [parentHashes] (the shape
    [CheckpointStore] builds) and whose fields have their widths,
    [header_hash] is the 32-byte BLAKE2b digest keyed "BlockHash" of:
    u16 LE version, u64 LE level count, per level its u64 LE count and
    its 32-byte hashes, the three 32-byte roots, u64 LE timestamp, u32
    LE bits, u64 LE nonce, u64 LE daa_score, u64 LE blue_score, u64 LE
    24, the 24 blue_work bytes and last the 32-byte pruning_point; the
    preimage has 206 bytes plus 8 and 32 per parent for every level. *)
Theorem header_hash_preimage (h : header) (levels : list (list bytes)) :
  typed_header h levels ->
  header_hash blake2b h
  = Return (blake2b 32 (String.list_byte_of_string "BlockHash")
              (header_preimage h levels))
  /\ length (header_preimage h levels) = (206 + levels_size levels)%nat.
Proof.
  intros [Hparents Hversion Hlevels Hlevel Hhmr Haimr Hutxo Hpp
            Htime Hbits Hnonce Hdaa Hblue Hwork].
  split.
  - unfold header_hash. rewrite Hparents.
    assert (Hcount : len (map ParentLevel levels) = len levels)
      by (unfold len; by rewrite length_map).
    rewrite Hcount.
    pose proof (len_nonneg levels).
    assert (Hwork24 : len (blueWork h) = 24)
      by (unfold len; rewrite Hwork; reflexivity).
    rewrite Hwork24. cbn [struct_pack].
    rewrite (fmt_fits_range H (version h)),
      (fmt_fits_range Q (len levels)) by (simpl; lia).
    cbn [obind].
    rewrite for_each_hash_level
      by (eapply Forall_impl; [exact Hlevel|]; by intros ? [? _]).
    cbn [obind].
    rewrite (fmt_fits_range Q (timeInMilliseconds h)),
      (fmt_fits_range I (bits h)), (fmt_fits_range Q (nonce h)),
      (fmt_fits_range Q (daaScore h)), (fmt_fits_range Q (blueScore h)),
      (fmt_fits_range Q 24) by (simpl; lia).
    cbn [obind].
    rewrite !update_update. unfold digest, update, new_hasher, header_preimage.
    cbn [digest_size key fed fmt_size].
    do 2 f_equal; rewrite ?app_nil_r, <- ?app_assoc; reflexivity.
  - unfold header_preimage.
    rewrite !length_app, !length_le_bytes, length_levels by done.
    rewrite Hhmr, Haimr, Hutxo, Hpp, Hwork. lia.
Qed.

End HeaderHash.

Ltac in_range := split; [apply Z.leb_le | apply Z.ltb_lt]; reflexivity.

Lemma sample_header_typed : typed_header sample_header sample_levels.
Proof.
  split.
  - reflexivity.
  - in_range.
  - apply Z.ltb_lt. reflexivity.
  - repeat constructor.
  - reflexivity.
  - reflexivity.
  - reflexivity.
  - reflexivity.
  - in_range.
  - in_range.
  - in_range.
  - in_range.
  - in_range.
  - reflexivity.
Qed.

Lemma header_hash_preimage_witness :
  header_hash prefix_hash sample_header
  = Return (prefix_hash 32 (String.list_byte_of_string "BlockHash")
              (header_preimage sample_header sample_levels))
  /\ length (header_preimage sample_header sample_levels)
     = (206 + levels_size sample_levels)%nat.
Proof.
  apply (header_hash_preimage prefix_hash sample_header sample_levels).
  exact sample_header_typed.
Defined.

(** ** Headers of the Rust store under [header_hash] *)

Lemma le_value_bound bs : 0 <= le_value bs < 2 ^ (8 * Z.of_nat (length bs)).
Proof.
  induction bs as [|b bs IH].
  - simpl. lia.
  - cbn [le_value length].
    assert (Hb : 0 <= Z_of_byte b < 256).
    { unfold Z_of_byte. pose proof (Byte.to_N_bounded b). lia. }
    replace (8 * Z.of_nat (Datatypes.S (length bs)))
      with (8 + 8 * Z.of_nat (length bs)) by lia.
    rewrite Z.pow_add_r by lia. change (2 ^ 8) with 256. lia.
Qed.

Section RustStoreHeaders.

Variable blake2b : nat -> bytes -> bytes -> bytes.

(** What the Rust store returns with a [header_data] attribute is the
    [ParsedHeader] of a record that decoded. *)
Lemma get_raw_header_parsed (self : Store.t) (block_hash : bytes)
    (h : header) (hd : HeaderData.t) :
  get_raw_header self block_hash = Some h ->
  header_data h = Some hd ->
  exists header_bytes,
    deserialize_bincode_header (Some header_bytes) = Some hd
    /\ h = Store.ParsedHeader hd header_bytes.
Proof.
  unfold get_raw_header, store_header_source, Store.get_raw_header.
  destruct (Store.usable_db self) as [d|]; [|done].
  destruct (d !! Store._build_key DatabaseStorePrefixes.HEADERS [block_hash])
    as [header_bytes|]; [|done].
  destruct (deserialize_bincode_header (Some header_bytes)) as [hd'|] eqn:Hdec;
    [|by intros [= <-]].
  intros [= <-] [= <-]. by exists header_bytes.
Qed.

(** The [ParsedHeader] of a record that decoded with at least one parent
    level makes [header_hash] raise. *)
Lemma parsed_header_with_parents_raises (header_bytes : bytes)
    (hd : HeaderData.t) :
  deserialize_bincode_header (Some header_bytes) = Some hd ->
  HeaderData.parents hd <> [] ->
  header_hash blake2b (Store.ParsedHeader hd header_bytes)
  = Raise AttributeError.
Proof.
  intros Hdec Hparents.
  apply deserialize_Some in Hdec as [_ Hparse].
  apply parse_header_fields_inv in Hparse
    as (outer_len & levels & pos & Houter & Hlevels & _ & ->).
  cbn [HeaderData.parents] in Hparents.
  apply read_parents_by_level_pos in Hlevels as [_ Hcount].
  apply struct_unpack_Return in Houter as [Hwidth ->].
  pose proof (le_value_bound (slice header_bytes 34 42)) as Houter.
  rewrite Hwidth in Houter.
  pose proof (le_value_bound (slice header_bytes 32 34)) as Hversion.
  pose proof (slice_length_le header_bytes 32 34) as Hvwidth.
  destruct levels as [|level rest]; [done|].
  apply header_hash_plain_list_level with level (map HashList rest).
  - reflexivity.
  - cbn [version Store.ParsedHeader HeaderData.version].
    split; [lia|].
    eapply Z.lt_le_trans; [apply Hversion|].
    apply Z.pow_le_mono_r; lia.
  - cbn [parents Store.ParsedHeader HeaderData.parents]. unfold len.
    rewrite length_map, Hcount. simpl in Houter. lia.
Qed.

(** X3: a header fetched from the Rust store that decoded with at least
    one parent level makes [header_hash] raise: [ParsedHeader] hands the
    decoder's plain lists on as [parents]. *)
Lemma header_hash_rust_store_raises (self : Store.t) (block_hash : bytes)
    (h : header) (hd : HeaderData.t) :
  get_raw_header self block_hash = Some h ->
  header_data h = Some hd ->
  HeaderData.parents hd <> [] ->
  header_hash blake2b h = Raise AttributeError.
Proof.
  intros Hget Hdata Hparents.
  destruct (get_raw_header_parsed _ _ _ _ Hget Hdata) as (header_bytes & Hdec & ->).
  by apply parsed_header_with_parents_raises.
Qed.

(** C3 (the code departs from the claim): on every header that the Rust
    store returns for a record decoded with at least one parent level,
    [header_hash] returns no digest at all, hence not the digest of the
    specified preimage, whatever parent levels the preimage is built
    from: the levels are plain lists there, and [header_hash] raises
    when it reads [parentHashes] of the first one. *)
Theorem header_hash_rust_store_departs (self : Store.t) (block_hash : bytes)
    (h : header) (hd : HeaderData.t) :
  get_raw_header self block_hash = Some h ->
  header_data h = Some hd ->
  HeaderData.parents hd <> [] ->
  (forall digest, header_hash blake2b h <> Return digest)
  /\ (forall levels,
        header_hash blake2b h
        <> Return (blake2b 32 (String.list_byte_of_string "BlockHash")
                     (header_preimage h levels)))
  /\ exists e, header_hash blake2b h = Raise e.
Proof.
  intros Hget Hdata Hparents.
  destruct (get_raw_header_parsed _ _ _ _ Hget Hdata)
    as (header_bytes & Hdec & ->).
  rewrite (parsed_header_with_parents_raises _ _ Hdec Hparents).
  split; [done|]. split; [done|]. by exists AttributeError.
Qed.

End RustStoreHeaders.

Lemma header_hash_rust_store_departs_witness :
  (forall digest,
     header_hash genesis_const_hash one_parent_header <> Return digest)
  /\ (forall levels,
        header_hash genesis_const_hash one_parent_header
        <> Return (genesis_const_hash 32
                     (String.list_byte_of_string "BlockHash")
                     (header_preimage one_parent_header levels)))
  /\ exists e, header_hash genesis_const_hash one_parent_header = Raise e.
Proof.
  eapply (header_hash_rust_store_departs genesis_const_hash
            (opened_store db_with_tip) hash_a one_parent_header
            one_parent_header_data).
  - vm_compute. reflexivity.
  - reflexivity.
  - discriminate.
Defined.

Lemma header_hash_rust_store_raises_witness :
  header_hash genesis_const_hash
    (Store.ParsedHeader
       {| HeaderData.hashMerkleRoot := repeat x00 32;
          HeaderData.acceptedIDMerkleRoot := repeat x00 32;
          HeaderData.utxoCommitment := repeat x00 32;
          HeaderData.pruningPoint := repeat x00 32;
          HeaderData.timeInMilliseconds := 0;
          HeaderData.bits := 0;
          HeaderData.nonce := 0;
          HeaderData.daaScore := 0;
          HeaderData.blueWork := repeat x00 24;
          HeaderData.blueScore := 0;
          HeaderData.version := 0;
          HeaderData.parents := [HashList [repeat x11 32]] |}
       one_parent_header_bytes)
  = Raise AttributeError.
Proof.
  eapply (header_hash_rust_store_raises genesis_const_hash
            (opened_store db_with_tip) hash_a).
  - vm_compute. reflexivity.
  - reflexivity.
  - discriminate.
Defined.

(** ** The chain walker *)

Section WalkerFacts.

Variable blake2b : nat -> bytes -> bytes -> bytes.
Context {St : Type} `{HeaderSource St}.

Abbreviation walk := (walk_loop blake2b).
Abbreviation walk_to :=
  (assert_cryptographic_hash_chain_to_genesis blake2b).

(** One iteration that finds a wrong hash leaves the loop at once. *)
Lemma walk_loop_mismatch fuel (store : St) K target header d i :
  K <> target ->
  get_raw_header store K = Some header ->
  header_hash blake2b header = Return d ->
  d <> K ->
  walk (Datatypes.S fuel) store K target i = HashMismatch K.
Proof.
  intros Hne Hget Hhash Hd. cbn [walk_loop].
  rewrite bool_decide_eq_false_2 by done. rewrite Hget, Hhash.
  by rewrite bool_decide_eq_true_2.
Qed.

(** One iteration in which [header_hash] raises lets the exception out. *)
Lemma walk_loop_raises fuel (store : St) K target header e i :
  K <> target ->
  get_raw_header store K = Some header ->
  header_hash blake2b header = Raise e ->
  walk (Datatypes.S fuel) store K target i = WalkRaised e.
Proof.
  intros Hne Hget Hhash. cbn [walk_loop].
  rewrite bool_decide_eq_false_2 by done. by rewrite Hget, Hhash.
Qed.

(** One iteration over a verified link. *)
Lemma walk_loop_link fuel (store : St) k target header i :
  k <> target ->
  get_raw_header store k = Some header ->
  header_hash blake2b header = Return k ->
  walk (Datatypes.S fuel) store k target i
  = if (1000 <? i + 1)%nat then TooManyIterations
    else walk fuel store (pruningPoint header) target (i + 1).
Proof.
  intros Hne Hget Hhash. cbn [walk_loop].
  rewrite bool_decide_eq_false_2 by done. rewrite Hget, Hhash.
  rewrite bool_decide_eq_false_2 by (intros Hk; by apply Hk).
  reflexivity.
Qed.

(** Walking along verified links. *)
Lemma walk_loop_follows (store : St) target k j k' :
  follows blake2b store target k j k' ->
  forall fuel i, (i + j <= 1000)%nat ->
    walk (j + fuel) store k target i = walk fuel store k' target (i + j).
Proof.
  induction 1 as [k|k header n k' Hne Hget Hhash _ IH]; intros fuel i Hbound.
  - by rewrite Nat.add_0_r.
  - cbn [Nat.add]. rewrite (walk_loop_link _ _ _ _ header) by done.
    destruct (1000 <? i + 1)%nat eqn:E; [apply Nat.ltb_lt in E; lia|].
    rewrite IH by lia. f_equal. lia.
Qed.

(** With enough fuel the model of the loop reaches an exit of the source. *)
Lemma walk_loop_enough_fuel fuel (store : St) k target i :
  (1001 <= fuel + i)%nat -> (i <= 1000)%nat ->
  walk fuel store k target i <> FuelExhausted.
Proof.
  revert k i. induction fuel as [|fuel IH]; intros k i Hfuel Hi; [lia|].
  cbn [walk_loop]. case_bool_decide; [done|].
  destruct (get_raw_header store k) as [header|]; [|done].
  destruct (header_hash blake2b header) as [d|e]; [|done].
  case_bool_decide; [done|].
  destruct (1000 <? i + 1)%nat eqn:E; [done|].
  apply Nat.ltb_ge in E. apply IH; lia.
Qed.

(** More fuel than needed changes nothing. *)
Lemma walk_loop_more_fuel fuel extra (store : St) k target i :
  walk fuel store k target i <> FuelExhausted ->
  walk (fuel + extra) store k target i = walk fuel store k target i.
Proof.
  revert k i. induction fuel as [|fuel IH]; intros k i Hexit; [done|].
  cbn [Nat.add walk_loop] in *. case_bool_decide; [done|].
  destruct (get_raw_header store k) as [header|]; [|done].
  destruct (header_hash blake2b header) as [d|e]; [|done].
  case_bool_decide; [done|].
  destruct (1000 <? i + 1)%nat; [done|]. by apply IH.
Qed.

(** A walk that succeeds went along verified links only. *)
Lemma walk_loop_Reached fuel (store : St) k target i n :
  walk fuel store k target i = Reached n ->
  (i <= 1000)%nat ->
  exists j, n = (i + j)%nat /\ (n <= 1000)%nat
            /\ follows blake2b store target k j target.
Proof.
  revert k i. induction fuel as [|fuel IH]; intros k i Hexit Hi; [done|].
  cbn [walk_loop] in Hexit. case_bool_decide as Hk.
  { injection Hexit as <-. subst k. exists 0%nat.
    split; [lia|]. split; [done|]. constructor. }
  destruct (get_raw_header store k) as [header|] eqn:Hget; [|done].
  destruct (header_hash blake2b header) as [d|e] eqn:Hhash; [|done].
  case_bool_decide as Hd; [done|].
  destruct (1000 <? i + 1)%nat eqn:E; [done|].
  apply Nat.ltb_ge in E.
  destruct (IH _ _ Hexit E) as (j & -> & Hn & Hchain).
  exists (Datatypes.S j). split; [lia|]. split; [done|].
  apply follows_link with header; try done.
  rewrite Hhash. f_equal.
  destruct (decide (d = k)) as [Heq|Hneq]; [exact Heq|by destruct Hd].
Qed.

(** C2: when the walker, after [j] verified links from [start], fetches
    under a key [K] other than the target a header whose recomputed
    hash differs from [K], it fails with the hash-mismatch exit for [K]
    (the iteration that reads the header is the last one, whatever the
    counter), it returns [False], and it does not report success; and
    a walk reports success only along headers that all hash to the key
    they were fetched under. *)
Theorem walker_hash_mismatch (store : St) (start target K : bytes)
    (header : header) (d : bytes) (j : nat) :
  follows blake2b store target start j K ->
  (j <= 1000)%nat ->
  K <> target ->
  get_raw_header store K = Some header ->
  header_hash blake2b header = Return d ->
  d <> K ->
  walk_to store start target = HashMismatch K
  /\ walk_value (walk_to store start target) = Some (Return false)
  /\ (forall fuel i, walk (Datatypes.S fuel) store K target i = HashMismatch K)
  /\ (forall start' n,
        walk_to store start' target = Reached n ->
        follows blake2b store target start' n target).
Proof.
  intros Hchain Hj Hne Hget Hhash Hd.
  assert (Hexit : walk_to store start target = HashMismatch K).
  { unfold assert_cryptographic_hash_chain_to_genesis.
    replace 1001%nat with (j + Datatypes.S (1000 - j))%nat by lia.
    rewrite (walk_loop_follows _ _ _ _ _ Hchain) by lia.
    by apply walk_loop_mismatch with header d. }
  split; [done|]. split; [by rewrite Hexit|]. split.
  - intros fuel i. by apply walk_loop_mismatch with header d.
  - intros start' n Hreached.
    apply walk_loop_Reached in Hreached as (j' & -> & _ & Hfollows); [|lia].
    exact Hfollows.
Qed.

(** In a two-cycle every walk length is verified. *)
Lemma two_cycle_follows (store : St) target A B HA HB :
  A <> target -> B <> target ->
  get_raw_header store A = Some HA -> header_hash blake2b HA = Return A ->
  pruningPoint HA = B ->
  get_raw_header store B = Some HB -> header_hash blake2b HB = Return B ->
  pruningPoint HB = A ->
  forall n,
    follows blake2b store target A n (if Nat.even n then A else B)
    /\ follows blake2b store target B n (if Nat.even n then B else A).
Proof.
  intros HneA HneB HgetA HhashA HppA HgetB HhashB HppB.
  induction n as [|n [IHA IHB]].
  - split; constructor.
  - rewrite Nat.even_succ, <- Nat.negb_even.
    destruct (Nat.even n); cbn [negb]; split.
    + apply follows_link with HA; try done. by rewrite HppA.
    + apply follows_link with HB; try done. by rewrite HppB.
    + apply follows_link with HA; try done. by rewrite HppA.
    + apply follows_link with HB; try done. by rewrite HppB.
Qed.

(** C5: the walk from any start hash terminates (the 1001 iterations
    modelled always reach an exit of the source, and more fuel gives
    the same exit); a successful walk followed at most 1000 links; the
    walker fails with the too-many-iterations exit as soon as the
    counter, incremented once per pruning-point link, exceeds 1000;
    so a two-cycle of consistently hashed headers is rejected by this
    bound. *)
Theorem walker_terminates (store : St) (start target : bytes) :
  (walk_to store start target <> FuelExhausted
   /\ forall extra,
        walk (1001 + extra) store start target 0 = walk_to store start target)
  /\ (forall n, walk_to store start target = Reached n -> (n <= 1000)%nat)
  /\ (forall K header,
        follows blake2b store target start 1000 K ->
        K <> target ->
        get_raw_header store K = Some header ->
        header_hash blake2b header = Return K ->
        walk_to store start target = TooManyIterations)
  /\ (forall B HA HB,
        start <> target -> B <> target ->
        get_raw_header store start = Some HA ->
        header_hash blake2b HA = Return start ->
        pruningPoint HA = B ->
        get_raw_header store B = Some HB ->
        header_hash blake2b HB = Return B ->
        pruningPoint HB = start ->
        walk_to store start target = TooManyIterations
        /\ walk_value (walk_to store start target) = Some (Return false)).
Proof.
  assert (Hterm : walk_to store start target <> FuelExhausted).
  { apply walk_loop_enough_fuel; lia. }
  assert (Hbound : forall K header,
            follows blake2b store target start 1000 K ->
            K <> target ->
            get_raw_header store K = Some header ->
            header_hash blake2b header = Return K ->
            walk_to store start target = TooManyIterations).
  { intros K header Hchain Hne Hget Hhash.
    unfold assert_cryptographic_hash_chain_to_genesis.
    change 1001%nat with (1000 + 1)%nat.
    rewrite (walk_loop_follows _ _ _ _ _ Hchain) by lia.
    by rewrite (walk_loop_link _ _ _ _ header). }
  split; [split; [done|]|split; [|split; [done|]]].
  - intros extra. by apply walk_loop_more_fuel.
  - intros n Hreached.
    apply walk_loop_Reached in Hreached as (j & _ & Hn & _); [done|lia].
  - intros B HA HB HneA HneB HgetA HhashA HppA HgetB HhashB HppB.
    assert (Hexit : walk_to store start target = TooManyIterations).
    { apply (Hbound start HA); try done.
      destruct (two_cycle_follows store target start B HA HB
                  HneA HneB HgetA HhashA HppA HgetB HhashB HppB 1000%nat)
        as [Hchain _].
      exact Hchain. }
    split; [done|]. by rewrite Hexit.
Qed.

End WalkerFacts.

Lemma walker_hash_mismatch_witness :
  assert_cryptographic_hash_chain_to_genesis swap_tail_hash tampered_store
    hash_b original_genesis
  = HashMismatch hash_a.
Proof.
  apply (walker_hash_mismatch swap_tail_hash tampered_store hash_b
           original_genesis hash_a
           (CheckpointStore.make_header (plain_entry hash_a (repeat x00 32)))
           (repeat x00 32) 1).
  - apply follows_link
      with (CheckpointStore.make_header (plain_entry hash_b hash_a)).
    + discriminate.
    + vm_compute. reflexivity.
    + vm_compute. reflexivity.
    + apply follows_here.
  - lia.
  - discriminate.
  - vm_compute. reflexivity.
  - vm_compute. reflexivity.
  - discriminate.
Defined.

Lemma walker_terminates_witness :
  assert_cryptographic_hash_chain_to_genesis swap_tail_hash cycle_store
    hash_a original_genesis
  = TooManyIterations.
Proof.
  destruct (walker_terminates swap_tail_hash cycle_store hash_a
              original_genesis) as (_ & _ & _ & Hcycle).
  apply (Hcycle hash_b
           (CheckpointStore.make_header (plain_entry hash_a hash_b))
           (CheckpointStore.make_header (plain_entry hash_b hash_a))).
  - discriminate.
  - discriminate.
  - vm_compute. reflexivity.
  - vm_compute. reflexivity.
  - reflexivity.
  - vm_compute. reflexivity.
  - vm_compute. reflexivity.
  - reflexivity.
Defined.

(** The two-cycle, run: 1001 iterations end in the same exit. *)
Example two_cycle_run :
  assert_cryptographic_hash_chain_to_genesis swap_tail_hash cycle_store
    hash_a original_genesis
  = TooManyIterations.
Proof. vm_compute. reflexivity. Qed.

(** Scenario 5 of the specification: a two-node chain verifies in one step. *)
Example short_chain_run :
  assert_cryptographic_hash_chain_to_genesis swap_tail_hash cycle_store
    hash_a hash_b
  = Reached 1.
Proof. vm_compute. reflexivity. Qed.

Section MoreWalkerFacts.

Variable blake2b : nat -> bytes -> bytes -> bytes.
Context {St : Type} `{HeaderSource St}.

(** X4, walker correctness: along a verified chain of at most 1000
    links that ends at the target, the walker succeeds and counts the
    links. *)
Lemma walker_reaches_target (store : St) (start target : bytes) (n : nat) :
  follows blake2b store target start n target ->
  (n <= 1000)%nat ->
  assert_cryptographic_hash_chain_to_genesis blake2b store start target
  = Reached n.
Proof.
  intros Hchain Hn. unfold assert_cryptographic_hash_chain_to_genesis.
  replace 1001%nat with (n + Datatypes.S (1000 - n))%nat by lia.
  rewrite (walk_loop_follows _ _ _ _ _ _ Hchain) by lia.
  cbn [walk_loop Nat.add]. by rewrite bool_decide_eq_true_2.
Qed.

(** X6: a header missing on the way ends the walk with the not-found
    exit. *)
Lemma walker_header_missing (store : St) (start target K : bytes) (j : nat) :
  follows blake2b store target start j K ->
  (j <= 1000)%nat ->
  K <> target ->
  get_raw_header store K = None ->
  assert_cryptographic_hash_chain_to_genesis blake2b store start target
  = HeaderNotFound K.
Proof.
  intros Hchain Hj Hne Hget. unfold assert_cryptographic_hash_chain_to_genesis.
  replace 1001%nat with (j + Datatypes.S (1000 - j))%nat by lia.
  rewrite (walk_loop_follows _ _ _ _ _ _ Hchain) by lia.
  cbn [walk_loop]. rewrite bool_decide_eq_false_2 by done. by rewrite Hget.
Qed.

End MoreWalkerFacts.

Lemma walker_reaches_target_witness :
  assert_cryptographic_hash_chain_to_genesis swap_tail_hash cycle_store
    hash_a hash_b
  = Reached 1.
Proof.
  apply (walker_reaches_target swap_tail_hash cycle_store hash_a hash_b 1).
  - apply follows_link
      with (CheckpointStore.make_header (plain_entry hash_a hash_b)).
    + discriminate.
    + vm_compute. reflexivity.
    + vm_compute. reflexivity.
    + apply follows_here.
  - lia.
Defined.

Lemma walker_header_missing_witness :
  assert_cryptographic_hash_chain_to_genesis swap_tail_hash
    (CheckpointStore.init [plain_entry hash_b hash_a]) hash_b original_genesis
  = HeaderNotFound hash_a.
Proof.
  apply (walker_header_missing swap_tail_hash
           (CheckpointStore.init [plain_entry hash_b hash_a])
           hash_b original_genesis hash_a 1).
  - apply follows_link
      with (CheckpointStore.make_header (plain_entry hash_b hash_a)).
    + discriminate.
    + vm_compute. reflexivity.
    + vm_compute. reflexivity.
    + apply follows_here.
  - lia.
  - discriminate.
  - vm_compute. reflexivity.
Defined.

(** ** The verification driver *)

Section DriverFacts.

Variable blake2b : nat -> bytes -> bytes -> bytes.
Context {St : Type} `{HeaderSource St} `{TipsSource St}.

(** The digest of the synthetic coinbase transaction. *)
Lemma genesis_coinbase_digest :
  transaction_hash blake2b genesis_coinbase_tx
  = Return (blake2b 32 (String.list_byte_of_string "TransactionHash")
              coinbase_preimage).
Proof. vm_compute. reflexivity. Qed.

(** Steps 1 to 6 do not look at the sidecar: once they pass, the exit
    is decided by what step 7 returns or raises. *)
Lemma verify_genesis_steps_1_to_6 (store : St) checkpoint_data datadir k p7 :
  verify_genesis blake2b store checkpoint_data datadir = Completed k p7 ->
  exists genesis_header,
    get_raw_header store genesis_hash = Some genesis_header
    /\ header_hash blake2b genesis_header = Return genesis_hash
    /\ hashMerkleRoot genesis_header
       = blake2b 32 (String.list_byte_of_string "TransactionHash")
           coinbase_preimage
    /\ forall checkpoint_data' datadir',
         verify_genesis blake2b store checkpoint_data' datadir'
         = match pre_checkpoint_verification blake2b genesis_header
                   checkpoint_data' datadir' with
           | Return p7' => Completed k p7'
           | Raise e => Excepted e
           end.
Proof.
  unfold verify_genesis. rewrite genesis_coinbase_digest.
  destruct (tips store) as [tips hst].
  destruct (get_raw_header store genesis_hash) as [genesis_header|]; [|done].
  destruct (header_hash blake2b genesis_header) as [h|e] eqn:Hhash; [|done].
  case_bool_decide as Hh; [done|].
  case_bool_decide as Hroot; [done|].
  destruct (match tips with tip :: _ => tip | [] => hst end)
    as [|b chain_tip]; [done|].
  destruct (assert_cryptographic_hash_chain_to_genesis blake2b store
              (b :: chain_tip) genesis_hash) as [i| | | | |]; try done.
  intros Hexit. exists genesis_header. split; [done|]. split; [|split].
  - destruct (decide (h = genesis_hash)) as [->|Hne]; [done|by destruct Hh].
  - destruct (decide (blake2b 32 (String.list_byte_of_string "TransactionHash")
                        coinbase_preimage = hashMerkleRoot genesis_header));
      [done|by destruct Hroot].
  - destruct (pre_checkpoint_verification blake2b genesis_header
                checkpoint_data datadir); [|done].
    injection Hexit as <- _. done.
Qed.

(** C1 (the code departs from the claim): when steps 1 to 5 pass and the
    sidecar loads, [verify_genesis] completes with [True] (exit code 0)
    whatever step 7 found, also when the report is a failure. *)
Theorem verify_genesis_ignores_phase7_failure (store : St)
    (datadir : option string) (k : genesis_kind) (p7 : phase7_report)
    (genesis_header : header) (headers_chain : list CheckpointStore.entry)
    (r : checkpoint_report) :
  verify_genesis blake2b store JsonAbsent datadir = Completed k p7 ->
  get_raw_header store genesis_hash = Some genesis_header ->
  check_snapshot blake2b genesis_header (CheckpointStore.init headers_chain)
  = Return r ->
  snapshot_passed r = false ->
  verify_genesis blake2b store (JsonLoaded headers_chain) datadir
  = Completed k (SnapshotChecked r)
  /\ verify_value
       (verify_genesis blake2b store (JsonLoaded headers_chain) datadir)
     = true
  /\ exit_code
       (verify_value
          (verify_genesis blake2b store (JsonLoaded headers_chain) datadir))
     = 0.
Proof.
  intros Hpass Hget Hreport _.
  destruct (verify_genesis_steps_1_to_6 _ _ _ _ _ Hpass)
    as (gh & Hget' & _ & _ & Hstep7).
  rewrite Hget in Hget'. injection Hget' as <-.
  assert (Hexit : verify_genesis blake2b store (JsonLoaded headers_chain)
                    datadir = Completed k (SnapshotChecked r)).
  { rewrite Hstep7. cbn [pre_checkpoint_verification].
    by rewrite Hreport. }
  by rewrite Hexit.
Qed.

(** C4, amended: the synthetic coinbase transaction has no inputs and
    no outputs, version, lockTime and gas 0, the subnetwork id 01
    followed by 19 zero bytes and the 204-byte payload literal; its
    [transaction_hash] is the BLAKE2b digest keyed "TransactionHash" of
    version, input count, output count, lockTime, subnetwork id, gas,
    payload length and payload; and whenever that digest differs from
    the merkle root of the stored genesis header the verification
    fails, with the coinbase-mismatch exit when the header hash itself
    was right. *)
Theorem genesis_coinbase_check (store : St) (checkpoint_data : checkpoint_json)
    (datadir : option string) (genesis_header : header) :
  get_raw_header store genesis_hash = Some genesis_header ->
  hashMerkleRoot genesis_header
  <> blake2b 32 (String.list_byte_of_string "TransactionHash")
       coinbase_preimage ->
  (Tx.inputs genesis_coinbase_tx = []
   /\ Tx.outputs genesis_coinbase_tx = []
   /\ Tx.version genesis_coinbase_tx = 0
   /\ Tx.lockTime genesis_coinbase_tx = 0
   /\ Tx.gas genesis_coinbase_tx = 0
   /\ Tx.subnetworkID genesis_coinbase_tx = x01 :: repeat x00 19
   /\ length (Tx.payload genesis_coinbase_tx) = 204%nat)
  /\ transaction_hash blake2b genesis_coinbase_tx
     = Return (blake2b 32 (String.list_byte_of_string "TransactionHash")
                 (le_bytes 2 0 ++ le_bytes 8 0 ++ le_bytes 8 0
                  ++ le_bytes 8 0 ++ (x01 :: repeat x00 19) ++ le_bytes 8 0
                  ++ le_bytes 8 204 ++ genesis_tx_payload))
  /\ verify_value (verify_genesis blake2b store checkpoint_data datadir)
     = false
  /\ (header_hash blake2b genesis_header = Return genesis_hash ->
      verify_genesis blake2b store checkpoint_data datadir
      = CoinbaseMismatch).
Proof.
  intros Hget Hroot. split; [by repeat split|]. split.
  { apply genesis_coinbase_digest. }
  assert (Hmismatch :
            header_hash blake2b genesis_header = Return genesis_hash ->
            verify_genesis blake2b store checkpoint_data datadir
            = CoinbaseMismatch).
  { intros Hhash. unfold verify_genesis.
    destruct (tips store) as [tips hst].
    rewrite Hget, Hhash, genesis_coinbase_digest.
    rewrite bool_decide_eq_false_2 by (intros Hh; by apply Hh).
    by rewrite bool_decide_eq_true_2. }
  split; [|done].
  destruct (verify_genesis blake2b store checkpoint_data datadir)
    as [| | | | | |k p7] eqn:Hexit; try done.
  apply verify_genesis_steps_1_to_6 in Hexit
    as (gh & Hget' & _ & Hroot' & _).
  rewrite Hget in Hget'. injection Hget' as <-. by destruct Hroot.
Qed.

End DriverFacts.

(** C4, counterexample: the payload literal has 204 bytes, not 176. *)
Lemma genesis_payload_length_counterexample :
  length (Tx.payload genesis_coinbase_tx) = 204%nat
  /\ length (Tx.payload genesis_coinbase_tx) <> 176%nat.
Proof. split; [reflexivity|discriminate]. Qed.

Lemma verify_genesis_ignores_phase7_failure_witness :
  verify_genesis genesis_const_hash
    (opened_store
       (db_genesis_only (header_bytes_with_merkle_root genesis_hash)))
    (JsonLoaded []) None
  = Completed OriginalGenesis (SnapshotChecked CheckpointHeaderNotFound)
  /\ verify_value
       (verify_genesis genesis_const_hash
          (opened_store
             (db_genesis_only (header_bytes_with_merkle_root genesis_hash)))
          (JsonLoaded []) None)
     = true
  /\ exit_code
       (verify_value
          (verify_genesis genesis_const_hash
             (opened_store
                (db_genesis_only (header_bytes_with_merkle_root genesis_hash)))
             (JsonLoaded []) None))
     = 0.
Proof.
  eapply (verify_genesis_ignores_phase7_failure genesis_const_hash
            (opened_store
               (db_genesis_only (header_bytes_with_merkle_root genesis_hash)))
            None OriginalGenesis Skipped _ [] CheckpointHeaderNotFound).
  - vm_compute. reflexivity.
  - vm_compute. reflexivity.
  - vm_compute. reflexivity.
  - reflexivity.
Defined.

Lemma genesis_coinbase_check_witness :
  verify_genesis genesis_const_hash
    (opened_store (db_genesis_only zero_header_bytes)) JsonAbsent None
  = CoinbaseMismatch.
Proof.
  destruct (genesis_coinbase_check genesis_const_hash
              (opened_store (db_genesis_only zero_header_bytes))
              JsonAbsent None
              (Store.ParsedHeader zero_header_data zero_header_bytes))
    as (_ & _ & _ & Hexit).
  - vm_compute. reflexivity.
  - vm_compute. discriminate.
  - apply Hexit. vm_compute. reflexivity.
Defined.

Section RustStoreDriver.

Variable blake2b : nat -> bytes -> bytes -> bytes.

(** X5: with the Rust store, a chain tip other than genesis whose header
    has a parent level makes [verify_genesis] return [False]: when steps
    3 and 4 pass, the walk of step 5 raises at its first header. *)
Lemma verify_genesis_rust_store_tip_with_parents (self : Store.t)
    (checkpoint_data : checkpoint_json) (datadir : option string)
    (chain_tip : bytes) (h : header) (hd : HeaderData.t) :
  match fst (tips self) with
  | tip :: _ => tip
  | [] => snd (tips self)
  end = chain_tip ->
  chain_tip <> genesis_hash ->
  get_raw_header self chain_tip = Some h ->
  header_data h = Some hd ->
  HeaderData.parents hd <> [] ->
  verify_value (verify_genesis blake2b self checkpoint_data datadir) = false
  /\ (forall k p7,
        verify_genesis blake2b self JsonAbsent None <> Completed k p7).
Proof.
  intros Htip Hne Hget Hdata Hparents.
  assert (Hraise : header_hash blake2b h = Raise AttributeError).
  { destruct (get_raw_header_parsed _ _ _ _ Hget Hdata)
      as (header_bytes & Hdec & ->).
    by apply parsed_header_with_parents_raises. }
  assert (Hwalk : assert_cryptographic_hash_chain_to_genesis blake2b self
                    chain_tip genesis_hash = WalkRaised AttributeError).
  { unfold assert_cryptographic_hash_chain_to_genesis.
    by apply walk_loop_raises with h. }
  assert (Hany : forall checkpoint_data' datadir' k p7,
            verify_genesis blake2b self checkpoint_data' datadir'
            <> Completed k p7).
  { intros checkpoint_data' datadir' k p7. unfold verify_genesis.
    destruct (tips self) as [tips hst]. cbn [fst snd] in Htip. rewrite Htip.
    destruct (get_raw_header self genesis_hash) as [genesis_header|]; [|done].
    destruct (header_hash blake2b genesis_header) as [gh|e]; [|done].
    case_bool_decide; [done|].
    destruct (transaction_hash blake2b genesis_coinbase_tx) as [calc|e];
      [|done].
    case_bool_decide; [done|].
    destruct chain_tip as [|b chain_tip]; [done|]. by rewrite Hwalk. }
  split; [|by intros k p7].
  destruct (verify_genesis blake2b self checkpoint_data datadir)
    as [| | | | | |k p7] eqn:Hexit; try done.
  by destruct (Hany checkpoint_data datadir k p7).
Qed.

End RustStoreDriver.

Lemma verify_genesis_rust_store_tip_with_parents_witness :
  verify_genesis genesis_const_hash (opened_store db_with_tip) JsonAbsent None
  = Excepted AttributeError
  /\ verify_value
       (verify_genesis genesis_const_hash (opened_store db_with_tip)
          JsonAbsent None)
     = false.
Proof.
  split; [vm_compute; reflexivity|].
  eapply (verify_genesis_rust_store_tip_with_parents genesis_const_hash
            (opened_store db_with_tip) JsonAbsent None hash_a).
  - vm_compute. reflexivity.
  - discriminate.
  - vm_compute. reflexivity.
  - reflexivity.
  - discriminate.
Defined.

(** ** The transaction hasher on any transaction *)

Section TransactionHash.

Variable blake2b : nat -> bytes -> bytes -> bytes.

Lemma hash_input_typed hs ti :
  typed_input ti -> hash_input hs ti = Return (update hs (input_bytes ti)).
Proof.
  intros (Hindex & Hscript & Hseq). unfold hash_input.
  pose proof (len_nonneg (Tx.signatureScript ti)).
  cbn [struct_pack].
  rewrite (fmt_fits_range I (Tx.index (Tx.previousOutpoint ti))),
    (fmt_fits_range Q (len (Tx.signatureScript ti))),
    (fmt_fits_range Q (Tx.sequence ti)) by (simpl; lia).
  cbn [obind]. rewrite !update_update. unfold input_bytes.
  cbn [fmt_size]. by rewrite !app_nil_r, <- !app_assoc.
Qed.

Lemma hash_output_typed hs to :
  typed_output to -> hash_output hs to = Return (update hs (output_bytes to)).
Proof.
  intros (Hvalue & Hversion & Hscript). unfold hash_output.
  pose proof (len_nonneg (Tx.script (Tx.scriptPublicKey to))).
  cbn [struct_pack].
  rewrite (fmt_fits_range Q (Tx.value to)),
    (fmt_fits_range H (Tx.spk_version (Tx.scriptPublicKey to))),
    (fmt_fits_range Q (len (Tx.script (Tx.scriptPublicKey to))))
    by (simpl; lia).
  cbn [obind]. rewrite !update_update. unfold output_bytes.
  cbn [fmt_size]. by rewrite !app_nil_r, <- !app_assoc.
Qed.

(** A loop whose body feeds a byte string per element feeds their
    concatenation. *)
Lemma for_each_feeds {A} (body : hasher -> A -> outcome hasher)
    (chunk : A -> bytes) (typed : A -> Prop) xs hs :
  (forall hs x, typed x -> body hs x = Return (update hs (chunk x))) ->
  Forall typed xs ->
  for_each body hs xs = Return (update hs (concat (map chunk xs))).
Proof.
  intros Hbody Hall. revert hs.
  induction Hall as [|x xs Hx _ IH]; intros hs.
  - simpl. by rewrite update_nil.
  - cbn [for_each map concat]. rewrite Hbody by done. cbn [obind].
    by rewrite IH, update_update.
Qed.

(** X7: for every transaction whose integer fields fit their formats,
    [transaction_hash] is the 32-byte BLAKE2b digest keyed
    "TransactionHash" of: u16 LE version, u64 LE input count, per input
    the previous transaction id, u32 LE index, u64 LE script length,
    script and u64 LE sequence, then u64 LE output count, per output
    u64 LE value, u16 LE script version, u64 LE script length and
    script, then u64 LE lockTime, the subnetwork id, u64 LE gas, u64 LE
    payload length and the payload. *)
Theorem transaction_hash_preimage (t : Tx.t) :
  typed_transaction t ->
  transaction_hash blake2b t
  = Return (blake2b 32 (String.list_byte_of_string "TransactionHash")
              (transaction_preimage t)).
Proof.
  intros [Hversion Hinputs Hinput Houtputs Houtput Hlock Hgas Hpayload].
  unfold transaction_hash.
  pose proof (len_nonneg (Tx.inputs t)).
  pose proof (len_nonneg (Tx.outputs t)).
  pose proof (len_nonneg (Tx.payload t)).
  cbn [struct_pack].
  rewrite (fmt_fits_range H (Tx.version t)),
    (fmt_fits_range Q (len (Tx.inputs t))) by (simpl; lia).
  cbn [obind].
  rewrite (for_each_feeds hash_input input_bytes typed_input)
    by (done || apply hash_input_typed).
  cbn [obind].
  rewrite (fmt_fits_range Q (len (Tx.outputs t))) by (simpl; lia).
  cbn [obind].
  rewrite (for_each_feeds hash_output output_bytes typed_output)
    by (done || apply hash_output_typed).
  cbn [obind].
  rewrite (fmt_fits_range Q (Tx.lockTime t)), (fmt_fits_range Q (Tx.gas t)),
    (fmt_fits_range Q (len (Tx.payload t))) by (simpl; lia).
  cbn [obind].
  rewrite !update_update. unfold digest, update, new_hasher, transaction_preimage.
  cbn [digest_size key fed fmt_size].
  do 2 f_equal; rewrite ?app_nil_r, <- ?app_assoc; reflexivity.
Qed.

(** A value outside its format makes the hasher raise [struct.error]. *)
Lemma transaction_hash_bad_version (t : Tx.t) :
  ~ (0 <= Tx.version t < 2 ^ 16) ->
  transaction_hash blake2b t = Raise StructError.
Proof.
  intros Hbad. unfold transaction_hash. cbn [struct_pack].
  assert (Hfit : fmt_fits H (Tx.version t) = false).
  { unfold fmt_fits. apply andb_false_iff.
    destruct (decide (0 <= Tx.version t)) as [Hlo|Hlo].
    - right. apply Z.ltb_ge. simpl. simpl in Hbad. lia.
    - left. apply Z.leb_gt. lia. }
  by rewrite Hfit.
Qed.

End TransactionHash.

Lemma sample_transaction_typed : typed_transaction sample_transaction.
Proof.
  split.
  - in_range.
  - apply Z.ltb_lt. reflexivity.
  - constructor; [|constructor].
    split; [in_range|]. split; [apply Z.ltb_lt; reflexivity|in_range].
  - apply Z.ltb_lt. reflexivity.
  - constructor; [|constructor].
    split; [in_range|]. split; [in_range|apply Z.ltb_lt; reflexivity].
  - in_range.
  - in_range.
  - apply Z.ltb_lt. reflexivity.
Qed.

Lemma transaction_hash_preimage_witness :
  transaction_hash prefix_hash sample_transaction
  = Return (prefix_hash 32 (String.list_byte_of_string "TransactionHash")
              (transaction_preimage sample_transaction)).
Proof.
  apply (transaction_hash_preimage prefix_hash sample_transaction).
  exact sample_transaction_typed.
Defined.

(** ** The decoder inverts the stored layout *)

(** Reading [f] at the cursor: when the buffer continues with [f] at
    [pos], the slice of that width is [f] and the cursor moves past it. *)
Lemma cursor_read (data : bytes) pos (f rest : bytes) n :
  drop pos data = f ++ rest -> length f = n ->
  slice data pos (pos + n) = f /\ drop (pos + n) data = rest.
Proof.
  intros Hdrop <-. split.
  - unfold slice. rewrite Hdrop.
    replace (pos + length f - pos)%nat with (length f) by lia.
    apply take_app_length.
  - rewrite <- drop_drop, Hdrop. apply drop_app_length.
Qed.

Lemma read_inner_hashes_concat (data : bytes) pos (hashes : list bytes) rest :
  drop pos data = concat hashes ++ rest ->
  Forall (fun p : bytes => length p = 32%nat) hashes ->
  read_inner_hashes data pos (length hashes)
  = (hashes, (pos + 32 * length hashes)%nat)
  /\ drop (pos + 32 * length hashes) data = rest.
Proof.
  revert pos. induction hashes as [|p ps IH]; intros pos Hdrop Hall.
  - simpl in *. rewrite Nat.add_0_r. done.
  - apply Forall_cons in Hall as [Hp Hps].
    cbn [concat] in Hdrop. rewrite <- app_assoc in Hdrop.
    destruct (cursor_read _ _ _ _ 32 Hdrop Hp) as [Hslice Hnext].
    destruct (IH _ Hnext Hps) as [Hread Hrest].
    cbn [read_inner_hashes length]. rewrite Hread, Hslice.
    replace (pos + 32 * Datatypes.S (length ps))%nat
      with (pos + 32 + 32 * length ps)%nat by lia.
    done.
Qed.

Lemma read_parents_by_level_encode (data : bytes) pos
    (levels : list (list bytes)) rest :
  drop pos data = encode_levels levels ++ rest ->
  Forall (fun level : list bytes =>
            len level < 2 ^ 64
            /\ Forall (fun p : bytes => length p = 32%nat) level) levels ->
  read_parents_by_level data pos (length levels)
  = Return (levels, (pos + levels_size levels)%nat)
  /\ drop (pos + levels_size levels) data = rest.
Proof.
  revert pos. induction levels as [|level levels IH]; intros pos Hdrop Hall.
  - simpl in *. rewrite Nat.add_0_r. done.
  - apply Forall_cons in Hall as [[Hcount Hlevel] Hlevels].
    unfold encode_levels in Hdrop. cbn [map concat] in Hdrop.
    rewrite <- !app_assoc in Hdrop.
    destruct (cursor_read _ _ _ _ 8 Hdrop (length_le_bytes 8 _))
      as [Hslice Hnext].
    destruct (read_inner_hashes_concat _ _ _ _ Hnext Hlevel)
      as [Hinner Hnext2].
    destruct (IH _ Hnext2 Hlevels) as [Hread Hrest].
    cbn [read_parents_by_level length]. rewrite Hslice.
    assert (Hunpack : struct_unpack Q (le_bytes 8 (len level))
                      = Return (len level)).
    { apply (struct_unpack_le_bytes Q). apply fmt_fits_range.
      pose proof (len_nonneg level). simpl. lia. }
    rewrite Hunpack. cbn [obind]. unfold len at 1. rewrite Nat2Z.id.
    rewrite Hinner, Hread. cbn [obind].
    replace (pos + levels_size (level :: levels))%nat
      with (pos + 8 + 32 * length level + levels_size levels)%nat
      by (cbn [levels_size fold_right]; unfold levels_size; lia).
    done.
Qed.

(** X8, round trip: a record laid out as the decoder's comment says,
    from header data whose fields have their declared widths, decodes
    to that header data, whatever the 32 stored hash bytes are; read
    from the database under the key of a block hash, it comes back as the
    parsed header of that data. *)
Theorem deserialize_encode_header (stored_hash : bytes) (h : HeaderData.t)
    (levels : list (list bytes)) (block_hash : bytes) :
  length stored_hash = 32%nat ->
  typed_header_data h levels ->
  deserialize_bincode_header (Some (encode_header stored_hash h levels))
  = Some h
  /\ get_raw_header
       (opened_store
          {[ DatabaseStorePrefixes.HEADERS :: block_hash
               := encode_header stored_hash h levels ]}) block_hash
     = Some (Store.ParsedHeader h (encode_header stored_hash h levels)).
Proof.
  intros Hstored [Hparents Hversion Hlevels Hlevel Hhmr Haimr Hutxo Hpp
                    Htime Hbits Hnonce Hdaa Hblue Hwork].
  assert (Hdec : deserialize_bincode_header
                   (Some (encode_header stored_hash h levels)) = Some h).
  { set (data := encode_header stored_hash h levels).
    assert (D0 : drop 0 data = data) by apply drop_0.
    unfold data at 2 in D0. unfold encode_header in D0.
    destruct (cursor_read _ _ _ _ 32 D0 Hstored) as [_ D1].
    destruct (cursor_read _ _ _ _ 2 D1 (length_le_bytes 2 _)) as [Sv D2].
    destruct (cursor_read _ _ _ _ 8 D2 (length_le_bytes 8 _)) as [Sn D3].
    cbn [Nat.add] in Sv, Sn, D3.
    destruct (read_parents_by_level_encode _ _ _ _ D3 Hlevel) as [Rl D4].
    set (pos := (42 + levels_size levels)%nat) in *.
    destruct (cursor_read _ _ _ _ 32 D4 Hhmr) as [S1 D5].
    destruct (cursor_read _ _ _ _ 32 D5 Haimr) as [S2 D6].
    destruct (cursor_read _ _ _ _ 32 D6 Hutxo) as [S3 D7].
    destruct (cursor_read _ _ _ _ 8 D7 (length_le_bytes 8 _)) as [S4 D8].
    destruct (cursor_read _ _ _ _ 4 D8 (length_le_bytes 4 _)) as [S5 D9].
    destruct (cursor_read _ _ _ _ 8 D9 (length_le_bytes 8 _)) as [S6 D10].
    destruct (cursor_read _ _ _ _ 8 D10 (length_le_bytes 8 _)) as [S7 D11].
    destruct (cursor_read _ _ _ _ 24 D11 Hwork) as [S8 D12].
    destruct (cursor_read _ _ _ _ 8 D12 (length_le_bytes 8 _)) as [S9 D13].
    assert (S10 : slice data (pos + 156) (pos + 188) = HeaderData.pruningPoint h).
    { unfold slice.
      replace (pos + 156)%nat
        with (pos + 32 + 32 + 32 + 8 + 4 + 8 + 8 + 24 + 8)%nat by lia.
      rewrite D13. apply take_ge. lia. }
    replace (pos + 32 + 32)%nat with (pos + 64)%nat in * by lia.
    replace (pos + 64 + 32)%nat with (pos + 96)%nat in * by lia.
    replace (pos + 96 + 8)%nat with (pos + 104)%nat in * by lia.
    replace (pos + 104 + 4)%nat with (pos + 108)%nat in * by lia.
    replace (pos + 108 + 8)%nat with (pos + 116)%nat in * by lia.
    replace (pos + 116 + 8)%nat with (pos + 124)%nat in * by lia.
    replace (pos + 124 + 24)%nat with (pos + 148)%nat in * by lia.
    replace (pos + 148 + 8)%nat with (pos + 156)%nat in * by lia.
    assert (Hlen : length data = (pos + 188)%nat).
    { pose proof (f_equal length D13) as Hl. rewrite length_drop, Hpp in Hl.
      lia. }
    pose proof (len_nonneg levels).
    apply deserialize_Some. split; [lia|].
    rewrite (parse_header_fields_intro data (len levels) levels pos).
    - rewrite S1, S2, S3, S4, S5, S6, S7, S8, S9, S10, Sv.
      rewrite !le_value_le_bytes by (simpl; lia).
      rewrite <- Hparents. by destruct h.
    - rewrite Sn. apply (struct_unpack_le_bytes Q). apply fmt_fits_range.
      simpl. lia.
    - unfold len. by rewrite Nat2Z.id.
    - lia. }
  split; [done|].
  unfold get_raw_header, store_header_source, Store.get_raw_header.
  cbn [Store.usable_db opened_store Store.db_available Store.db].
  cbn zeta. cbn [Store._build_key fold_left app].
  by rewrite lookup_singleton_eq, Hdec.
Qed.

Lemma sample_header_data_typed :
  typed_header_data sample_header_data sample_data_levels.
Proof.
  split.
  - reflexivity.
  - in_range.
  - apply Z.ltb_lt. reflexivity.
  - repeat constructor.
  - reflexivity.
  - reflexivity.
  - reflexivity.
  - reflexivity.
  - in_range.
  - in_range.
  - in_range.
  - in_range.
  - in_range.
  - reflexivity.
Qed.

Lemma deserialize_encode_header_witness :
  deserialize_bincode_header
    (Some (encode_header (repeat xee 32) sample_header_data sample_data_levels))
  = Some sample_header_data.
Proof.
  apply (deserialize_encode_header (repeat xee 32) sample_header_data
           sample_data_levels sample_key).
  - reflexivity.
  - exact sample_header_data_typed.
Defined.

(** The round trip, run: the sample record has 342 bytes. *)
Example sample_record_run :
  length (encode_header (repeat xee 32) sample_header_data sample_data_levels)
  = 342%nat
  /\ deserialize_bincode_header
       (Some (encode_header (repeat xee 32) sample_header_data
                sample_data_levels))
     = Some sample_header_data.
Proof. split; vm_compute; reflexivity. Qed.

(** ** Which headers [header_hash] accepts *)

Section HeaderHashInRange.

Variable blake2b : nat -> bytes -> bytes -> bytes.

(** For a header whose integer fields fit their formats and whose
    parent levels are objects, [header_hash] returns the digest of what
    it fed. *)
Lemma header_hash_in_range (h : header) (levels : list (list bytes)) :
  header_in_range h levels ->
  header_hash blake2b h
  = Return (blake2b 32 (String.list_byte_of_string "BlockHash")
              (header_hash_input h levels)).
Proof.
  intros [Hparents Hversion Hlevels Hlevel Htime Hbits Hnonce Hdaa Hblue
            Hwork].
  unfold header_hash. rewrite Hparents.
  assert (Hcount : len (map ParentLevel levels) = len levels)
    by (unfold len; by rewrite length_map).
  rewrite Hcount.
  pose proof (len_nonneg levels). pose proof (len_nonneg (blueWork h)).
  cbn [struct_pack].
  rewrite (fmt_fits_range H (version h)),
    (fmt_fits_range Q (len levels)) by (simpl; lia).
  cbn [obind]. rewrite for_each_hash_level by done. cbn [obind].
  rewrite (fmt_fits_range Q (timeInMilliseconds h)),
    (fmt_fits_range I (bits h)), (fmt_fits_range Q (nonce h)),
    (fmt_fits_range Q (daaScore h)), (fmt_fits_range Q (blueScore h)),
    (fmt_fits_range Q (len (blueWork h))) by (simpl; lia).
  cbn [obind].
  rewrite !update_update. unfold digest, update, new_hasher, header_hash_input.
  cbn [digest_size key fed fmt_size].
  do 2 f_equal; rewrite ?app_nil_r, <- ?app_assoc; reflexivity.
Qed.

(** The decoder returns integers that fit their formats. *)
Lemma parsed_header_in_range (header_bytes : bytes) (hd : HeaderData.t) :
  deserialize_bincode_header (Some header_bytes) = Some hd ->
  HeaderData.parents hd = [] ->
  header_in_range (Store.ParsedHeader hd header_bytes) [].
Proof.
  intros Hdec Hparents.
  pose proof (deserialize_field_widths _ _ Hdec) as (_ & _ & _ & Hwork & _).
  apply deserialize_Some in Hdec as [_ Hparse].
  apply parse_header_fields_inv in Hparse
    as (outer_len & levels & pos & _ & _ & Hin & ->).
  cbn [HeaderData.parents HeaderData.blueWork] in *.
  assert (Hu : forall a b n, (b <= length header_bytes)%nat ->
                 (b - a)%nat = n ->
                 0 <= le_value (slice header_bytes a b)
                 < 2 ^ (8 * Z.of_nat n)).
  { intros a b n Hb <-.
    pose proof (le_value_bound (slice header_bytes a b)) as Hbound.
    by rewrite slice_length in Hbound. }
  split; cbn [Store.ParsedHeader parents version timeInMilliseconds bits nonce
              daaScore blueScore blueWork HeaderData.version
              HeaderData.parents HeaderData.timeInMilliseconds
              HeaderData.bits HeaderData.nonce HeaderData.daaScore
              HeaderData.blueScore HeaderData.blueWork].
  - done.
  - apply (Hu 32 34 2)%nat; lia.
  - reflexivity.
  - constructor.
  - apply (Hu (pos + 96) (pos + 104) 8)%nat; lia.
  - apply (Hu (pos + 104) (pos + 108) 4)%nat; lia.
  - apply (Hu (pos + 108) (pos + 116) 8)%nat; lia.
  - apply (Hu (pos + 116) (pos + 124) 8)%nat; lia.
  - apply (Hu (pos + 148) (pos + 156) 8)%nat; lia.
  - unfold len. rewrite Hwork. reflexivity.
Qed.

(** X9: a header that the Rust store decoded without parent levels is
    always accepted by [header_hash]: the decoded integers fit their
    formats, so no [struct.error] is raised, and the digest is that of
    the bytes fed. *)
Theorem header_hash_rust_store_no_parents (self : Store.t)
    (block_hash : bytes) (h : header) (hd : HeaderData.t) :
  get_raw_header self block_hash = Some h ->
  header_data h = Some hd ->
  HeaderData.parents hd = [] ->
  header_hash blake2b h
  = Return (blake2b 32 (String.list_byte_of_string "BlockHash")
              (header_hash_input h [])).
Proof.
  intros Hget Hdata Hparents.
  destruct (get_raw_header_parsed _ _ _ _ Hget Hdata)
    as (header_bytes & Hdec & ->).
  apply header_hash_in_range. by apply parsed_header_in_range.
Qed.

(** What the Rust store returns without a [header_data] attribute is
    the fallback [RawHeader] of a stored record that did not decode. *)
Lemma get_raw_header_fallback (self : Store.t) (block_hash : bytes)
    (h : header) :
  get_raw_header self block_hash = Some h ->
  header_data h = None ->
  exists d header_bytes,
    Store.usable_db self = Some d
    /\ d !! Store._build_key DatabaseStorePrefixes.HEADERS [block_hash]
       = Some header_bytes
    /\ deserialize_bincode_header (Some header_bytes) = None
    /\ h = Store.RawHeader header_bytes.
Proof.
  unfold get_raw_header, store_header_source, Store.get_raw_header.
  destruct (Store.usable_db self) as [d|]; [|done].
  destruct (d !! Store._build_key DatabaseStorePrefixes.HEADERS [block_hash])
    as [header_bytes|] eqn:Hget; [|done].
  destruct (deserialize_bincode_header (Some header_bytes)) as [hd|] eqn:Hdec.
  - by intros [= <-].
  - intros [= <-] _. by exists d, header_bytes.
Qed.

Lemma header_hash_RawHeader (data : bytes) :
  header_hash blake2b (Store.RawHeader data)
  = Return (blake2b 32 (String.list_byte_of_string "BlockHash")
              raw_header_hash_input).
Proof. vm_compute. reflexivity. Qed.

(** X10: a stored record that does not decode is not reported as an
    error: the Rust store returns a header with empty fields, on which
    [header_hash] gives one and the same digest (that of 54 zero bytes)
    whatever the record holds; so, unless that digest is the key, the
    walker ends with the hash-mismatch exit for the key. *)
Theorem walker_undecodable_record (self : Store.t)
    (K target header_bytes : bytes) (d : gmap bytes bytes) :
  Store.usable_db self = Some d ->
  d !! Store._build_key DatabaseStorePrefixes.HEADERS [K] = Some header_bytes ->
  deserialize_bincode_header (Some header_bytes) = None ->
  get_raw_header self K = Some (Store.RawHeader header_bytes)
  /\ header_hash blake2b (Store.RawHeader header_bytes)
     = Return (blake2b 32 (String.list_byte_of_string "BlockHash")
                 raw_header_hash_input)
  /\ (K <> target ->
      blake2b 32 (String.list_byte_of_string "BlockHash")
        raw_header_hash_input <> K ->
      assert_cryptographic_hash_chain_to_genesis blake2b self K target
      = HashMismatch K).
Proof.
  intros Hdb Hget Hdec.
  assert (Hraw : get_raw_header self K = Some (Store.RawHeader header_bytes)).
  { unfold get_raw_header, store_header_source, Store.get_raw_header.
    rewrite Hdb. cbn zeta. by rewrite Hget, Hdec. }
  split; [done|]. split; [apply header_hash_RawHeader|].
  intros Hne Hdigest. unfold assert_cryptographic_hash_chain_to_genesis.
  by apply walk_loop_mismatch
    with (Store.RawHeader header_bytes)
         (blake2b 32 (String.list_byte_of_string "BlockHash")
            raw_header_hash_input);
    [done|done|apply header_hash_RawHeader|done].
Qed.

End HeaderHashInRange.

Lemma header_hash_rust_store_no_parents_witness :
  header_hash genesis_const_hash
    (Store.ParsedHeader zero_header_data zero_header_bytes)
  = Return (genesis_const_hash 32 (String.list_byte_of_string "BlockHash")
              (header_hash_input
                 (Store.ParsedHeader zero_header_data zero_header_bytes) [])).
Proof.
  apply (header_hash_rust_store_no_parents genesis_const_hash
           (opened_store db_one_header) sample_key
           (Store.ParsedHeader zero_header_data zero_header_bytes)
           zero_header_data).
  - vm_compute. reflexivity.
  - reflexivity.
  - reflexivity.
Defined.

Lemma walker_undecodable_record_witness :
  assert_cryptographic_hash_chain_to_genesis prefix_hash
    (opened_store db_corrupt_record) sample_key genesis_hash
  = HashMismatch sample_key.
Proof.
  destruct (walker_undecodable_record prefix_hash
              (opened_store db_corrupt_record) sample_key genesis_hash
              (repeat x00 150) db_corrupt_record)
    as (_ & _ & Hwalk).
  - reflexivity.
  - vm_compute. reflexivity.
  - vm_compute. reflexivity.
  - apply Hwalk; vm_compute; discriminate.
Defined.

(** ** What [Store.tips] returns on any record *)

Lemma read_tips_widths tips_bytes pos count :
  Forall (fun tip : bytes => length tip = 32%nat)
    (Store.read_tips tips_bytes pos count).
Proof.
  revert pos. induction count as [|count IH]; intros pos; [constructor|].
  cbn [Store.read_tips].
  destruct (pos + 32 <=? length tips_bytes)%nat eqn:Hfits; [|constructor].
  apply Nat.leb_le in Hfits. constructor; [|apply IH].
  rewrite slice_length by done. lia.
Qed.

Lemma read_tips_count tips_bytes pos count :
  (pos <= length tips_bytes)%nat ->
  length (Store.read_tips tips_bytes pos count)
  = Nat.min count ((length tips_bytes - pos) / 32).
Proof.
  revert pos. induction count as [|count IH]; intros pos Hpos; [done|].
  cbn [Store.read_tips].
  destruct (pos + 32 <=? length tips_bytes)%nat eqn:Hfits.
  - apply Nat.leb_le in Hfits. cbn [length]. rewrite IH by lia.
    replace (length tips_bytes - pos)%nat
      with (1 * 32 + (length tips_bytes - (pos + 32)))%nat by lia.
    rewrite Nat.div_add_l by lia. lia.
  - apply Nat.leb_gt in Hfits.
    rewrite (Nat.div_small (length tips_bytes - pos) 32) by lia.
    by rewrite Nat.min_0_r.
Qed.

(** X11: whatever the database holds, every tip that [tips()] returns
    has exactly 32 bytes and the selected tip has at most 32; from a TIPS
    record of at least 8 bytes it returns as many tips as the record
    announces, or as many complete 32-byte hashes as follow the count
    when the record is shorter than announced. *)
Theorem tips_widths_and_count (self : Store.t) :
  Forall (fun tip : bytes => length tip = 32%nat) (fst (fst (Store.tips self)))
  /\ (length (snd (fst (Store.tips self))) <= 32)%nat
  /\ (forall (d : gmap bytes bytes) (tips_bytes : bytes),
        Store.usable_db self = Some d ->
        d !! Store._build_key DatabaseStorePrefixes.TIPS [] = Some tips_bytes ->
        (8 <= length tips_bytes)%nat ->
        length (fst (fst (Store.tips self)))
        = Nat.min (Z.to_nat (le_value (take 8 tips_bytes)))
            ((length tips_bytes - 8) / 32)).
Proof.
  assert (Hhst : forall d : gmap bytes bytes,
            (length
               match d !! Store._build_key
                            DatabaseStorePrefixes.HEADERS_SELECTED_TIP [] with
               | Some hst_bytes => Store.first32 hst_bytes
               | None => Store.zero_hash
               end <= 32)%nat).
  { intros d.
    destruct (d !! Store._build_key
                     DatabaseStorePrefixes.HEADERS_SELECTED_TIP []);
      [|done].
    rewrite first32_take, length_take. lia. }
  assert (Hunpack : forall tips_bytes,
            (8 <= length tips_bytes)%nat ->
            struct_unpack Q (slice tips_bytes 0 8)
            = Return (le_value (take 8 tips_bytes))).
  { intros tips_bytes Hlen.
    rewrite (struct_unpack_inside Q tips_bytes 0 8) by (simpl; lia).
    unfold slice. by rewrite drop_0. }
  unfold Store.tips.
  destruct (Store.usable_db self) as [d|]; cbn zeta.
  - specialize (Hhst d).
    destruct (d !! Store._build_key DatabaseStorePrefixes.TIPS [])
      as [tips_bytes|] eqn:Htips.
    + destruct (8 <=? length tips_bytes)%nat eqn:Hlen.
      * apply Nat.leb_le in Hlen. rewrite (Hunpack _ Hlen). cbn [fst snd].
        split; [apply read_tips_widths|]. split; [done|].
        intros d' tips_bytes' [= <-] Htips' _.
        rewrite Htips in Htips'. injection Htips' as <-.
        apply read_tips_count. lia.
      * apply Nat.leb_gt in Hlen. cbn [fst snd].
        split; [constructor|]. split; [done|].
        intros d' tips_bytes' [= <-] Htips' Hlen'.
        rewrite Htips in Htips'. injection Htips' as <-. lia.
    + cbn [fst snd]. split; [constructor|]. split; [done|].
      intros d' tips_bytes' [= <-] Htips'. by rewrite Htips in Htips'.
  - cbn [fst snd]. split; [constructor|]. split; [simpl; lia|]. done.
Qed.

Lemma tips_widths_and_count_witness :
  length (fst (fst (Store.tips (opened_store db_truncated_tips)))) = 1%nat.
Proof.
  destruct (tips_widths_and_count (opened_store db_truncated_tips))
    as (_ & _ & Hcount).
  rewrite (Hcount db_truncated_tips
             (le_bytes 8 3 ++ repeat x02 32 ++ repeat x03 16)).
  - vm_compute. reflexivity.
  - reflexivity.
  - vm_compute. reflexivity.
  - vm_compute. lia.
Defined.

(** ** Database keys do not collide *)

(** X12: the key of a header record is the prefix byte 8 followed by
    the block hash, so header keys of different hashes differ and none
    of them is the key of the tips, the selected tip or the pruning
    point: a header record written under one hash changes neither the
    header returned for another hash nor what [tips()] and
    [pruning_point()] return, and it is found under its own hash. *)
Theorem header_record_frame (self : Store.t) (d : gmap bytes bytes)
    (h1 h2 record : bytes) :
  Store.usable_db self = Some d ->
  h1 <> h2 ->
  let self' :=
    Store.mk true
      (Some (<[Store._build_key DatabaseStorePrefixes.HEADERS [h1] := record]> d))
      (Store.headers self) in
  get_raw_header self' h2 = get_raw_header self h2
  /\ fst (Store.tips self') = fst (Store.tips self)
  /\ fst (Store.pruning_point self') = fst (Store.pruning_point self)
  /\ is_Some (get_raw_header self' h1).
Proof.
  intros Hdb Hne self'.
  unfold get_raw_header, store_header_source, Store.get_raw_header,
    Store.tips, Store.pruning_point.
  rewrite Hdb. cbn [self' Store.usable_db Store.db_available Store.db].
  cbn zeta. cbn [Store._build_key fold_left app].
  rewrite !lookup_insert_ne by (intros [=]; done).
  rewrite lookup_insert_eq.
  split; [done|]. split; [done|]. split; [done|].
  by destruct (deserialize_bincode_header (Some record)).
Qed.

Lemma header_record_frame_witness :
  get_raw_header
    (Store.mk true
       (Some (<[Store._build_key DatabaseStorePrefixes.HEADERS [hash_a]
                  := zero_header_bytes]> db_only_tips)) ∅) hash_b
  = None
  /\ fst (Store.tips
            (Store.mk true
               (Some (<[Store._build_key DatabaseStorePrefixes.HEADERS [hash_a]
                          := zero_header_bytes]> db_only_tips)) ∅))
     = ([repeat x02 32], Store.zero_hash).
Proof.
  destruct (header_record_frame (opened_store db_only_tips) db_only_tips
              hash_a hash_b zero_header_bytes eq_refl)
    as (Hother & Htips & _).
  - discriminate.
  - split.
    + etrans; [exact Hother|]. vm_compute. reflexivity.
    + etrans; [exact Htips|]. vm_compute. reflexivity.
Defined.

(** ** The sidecar store *)

Lemma checkpoint_fold_lookup_other (chain : list CheckpointStore.entry)
    (m : gmap bytes header) k :
  Forall (fun e => CheckpointStore.json_hash e <> k) chain ->
  fold_left
    (fun headers header_data =>
       <[CheckpointStore.json_hash header_data
           := CheckpointStore.make_header header_data]> headers)
    chain m !! k
  = m !! k.
Proof.
  intros Hall. revert m. induction Hall as [|e chain He _ IH]; intros m;
    [done|].
  cbn [fold_left]. rewrite IH. by rewrite lookup_insert_ne.
Qed.

Lemma checkpoint_fold_lookup_inv (chain : list CheckpointStore.entry)
    (m : gmap bytes header) k h :
  fold_left
    (fun headers header_data =>
       <[CheckpointStore.json_hash header_data
           := CheckpointStore.make_header header_data]> headers)
    chain m !! k
  = Some h ->
  m !! k = Some h
  \/ exists e, e ∈ chain
               /\ CheckpointStore.json_hash e = k
               /\ h = CheckpointStore.make_header e.
Proof.
  revert m. induction chain as [|e chain IH]; intros m Hget.
  - by left.
  - cbn [fold_left] in Hget. destruct (IH _ Hget) as [Hm|(e' & Hin & He')].
    + destruct (decide (CheckpointStore.json_hash e = k)) as [Hk|Hk].
      * rewrite <- Hk, lookup_insert_eq in Hm. injection Hm as <-.
        right. exists e. split; [apply list_elem_of_here|done].
      * rewrite lookup_insert_ne in Hm by done. by left.
    + right. exists e'. split; [by apply list_elem_of_further|done].
Qed.

(** X13: the sidecar store returns, for a hash, the header of the last
    entry of [headers_chain] that carries this hash, and [None] when no
    entry carries it; every header it returns was built from an entry
    with that hash. *)
Theorem checkpoint_store_lookup (headers_chain : list CheckpointStore.entry)
    (k : bytes) :
  (Forall (fun e => CheckpointStore.json_hash e <> k) headers_chain ->
     get_raw_header (CheckpointStore.init headers_chain) k = None)
  /\ (forall before e after,
        headers_chain = before ++ e :: after ->
        CheckpointStore.json_hash e = k ->
        Forall (fun e' => CheckpointStore.json_hash e' <> k) after ->
        get_raw_header (CheckpointStore.init headers_chain) k
        = Some (CheckpointStore.make_header e))
  /\ (forall h,
        get_raw_header (CheckpointStore.init headers_chain) k = Some h ->
        exists e, e ∈ headers_chain
                  /\ CheckpointStore.json_hash e = k
                  /\ h = CheckpointStore.make_header e).
Proof.
  unfold get_raw_header, checkpoint_header_source,
    CheckpointStore.get_raw_header, CheckpointStore.init.
  cbn [CheckpointStore.headers].
  split; [|split].
  - intros Hall. by rewrite checkpoint_fold_lookup_other.
  - intros before e after -> Hk Hafter.
    rewrite fold_left_app. cbn [fold_left].
    rewrite checkpoint_fold_lookup_other by done.
    rewrite <- Hk. apply lookup_insert_eq.
  - intros h Hget.
    by destruct (checkpoint_fold_lookup_inv _ _ _ _ Hget) as [Hm|Hex].
Qed.

Lemma checkpoint_store_lookup_witness :
  get_raw_header (CheckpointStore.init duplicate_chain) hash_a
  = Some (CheckpointStore.make_header (plain_entry hash_a (repeat x00 32)))
  /\ get_raw_header (CheckpointStore.init duplicate_chain) (repeat x0c 32)
     = None.
Proof.
  destruct (checkpoint_store_lookup duplicate_chain hash_a)
    as (_ & Hlast & _).
  destruct (checkpoint_store_lookup duplicate_chain (repeat x0c 32))
    as (Hnone & _ & _).
  split.
  - apply (Hlast [plain_entry hash_a hash_b; plain_entry hash_b hash_a]
             (plain_entry hash_a (repeat x00 32)) []).
    + reflexivity.
    + reflexivity.
    + constructor.
  - apply Hnone. repeat constructor; discriminate.
Defined.

Section CheckpointHeaders.

Variable blake2b : nat -> bytes -> bytes -> bytes.

Lemma for_each_hash_level_objects levels hs e :
  for_each hash_level hs (map ParentLevel levels) = Raise e -> e = StructError.
Proof.
  revert hs. induction levels as [|level levels IH]; intros hs; [done|].
  cbn [map for_each hash_level struct_pack].
  destruct (fmt_fits Q (len level)); cbn [obind]; [apply IH|by intros [= <-]].
Qed.

(** X14: a header of the sidecar store never makes [header_hash] fail on
    a missing attribute (its parent levels are objects): the only
    exception possible is [struct.error], and when the integers of the
    entry fit their formats [header_hash] returns the digest of the
    bytes fed. *)
Theorem header_hash_checkpoint_entry (e : CheckpointStore.entry) :
  (forall x, header_hash blake2b (CheckpointStore.make_header e) = Raise x ->
             x = StructError)
  /\ (entry_in_range e ->
      header_hash blake2b (CheckpointStore.make_header e)
      = Return (blake2b 32 (String.list_byte_of_string "BlockHash")
                  (header_hash_input (CheckpointStore.make_header e)
                     (CheckpointStore.json_parents e)))).
Proof.
  split.
  - intros x. unfold header_hash.
    cbn [CheckpointStore.make_header version parents struct_pack].
    destruct (fmt_fits H (CheckpointStore.json_version e));
      [|by intros [= <-]].
    destruct (fmt_fits Q
                (len (map ParentLevel (CheckpointStore.json_parents e))));
      [|by intros [= <-]].
    cbn [obind].
    destruct (for_each hash_level _ (map ParentLevel _)) as [hs|e'] eqn:Hloop.
    + cbn [obind].
      repeat match goal with
             | |- context [if fmt_fits ?f ?v then _ else _] =>
                 destruct (fmt_fits f v); [|by intros [= <-]]
             end.
      done.
    + cbn [obind]. intros [= <-].
      by apply for_each_hash_level_objects in Hloop.
  - intros [Hversion Hlevels Hlevel Htime Hbits Hnonce Hdaa Hblue Hwork].
    apply header_hash_in_range. by split.
Qed.

End CheckpointHeaders.

Lemma plain_entry_in_range hash pruning_point :
  entry_in_range (plain_entry hash pruning_point).
Proof.
  split; try in_range; try (apply Z.ltb_lt; reflexivity). constructor.
Qed.

Lemma header_hash_checkpoint_entry_witness :
  header_hash swap_tail_hash
    (CheckpointStore.make_header (plain_entry hash_a hash_b))
  = Return (swap_tail_hash 32 (String.list_byte_of_string "BlockHash")
              (header_hash_input
                 (CheckpointStore.make_header (plain_entry hash_a hash_b))
                 [])).
Proof.
  apply (proj2 (header_hash_checkpoint_entry swap_tail_hash
                  (plain_entry hash_a hash_b))).
  apply plain_entry_in_range.
Defined.

(** ** What the walker and step 7 never check *)

Section TargetHeader.

Variable blake2b : nat -> bytes -> bytes -> bytes.
Context {St : Type} `{HeaderSource St}.

Lemma walk_loop_ignores_target fuel (s1 s2 : St) (k target : bytes) i :
  (forall k', k' <> target -> get_raw_header s1 k' = get_raw_header s2 k') ->
  walk_loop blake2b fuel s1 k target i = walk_loop blake2b fuel s2 k target i.
Proof.
  intros Hagree. revert k i. induction fuel as [|fuel IH]; intros k i; [done|].
  cbn [walk_loop]. case_bool_decide as Hk; [done|].
  rewrite (Hagree k Hk).
  destruct (get_raw_header s2 k) as [header|]; [|done].
  destruct (header_hash blake2b header) as [d|e]; [|done].
  case_bool_decide; [done|].
  destruct (1000 <? i + 1)%nat; [done|]. apply IH.
Qed.

(** X15: the walker never fetches the header stored under the target
    hash: two stores that agree on every other key give the same walk,
    so reaching the target says nothing about the target's own header. *)
Theorem walker_ignores_target_header (s1 s2 : St) (start target : bytes) :
  (forall k, k <> target -> get_raw_header s1 k = get_raw_header s2 k) ->
  assert_cryptographic_hash_chain_to_genesis blake2b s1 start target
  = assert_cryptographic_hash_chain_to_genesis blake2b s2 start target.
Proof.
  intros Hagree. by apply walk_loop_ignores_target.
Qed.

End TargetHeader.

Section OriginalGenesis.

Variable blake2b : nat -> bytes -> bytes -> bytes.

(** X16: step 7 reads the header stored under the original genesis
    hash without recomputing its hash: the report depends on that header
    only through its [utxoCommitment], so any header carrying the same
    commitment under that key gives the same report. *)
Theorem check_snapshot_original_genesis_unverified (genesis_header : header)
    (m : gmap bytes header) (g g' : header) :
  utxoCommitment g = utxoCommitment g' ->
  check_snapshot blake2b genesis_header
    (CheckpointStore.mk (<[original_genesis := g]> m))
  = check_snapshot blake2b genesis_header
      (CheckpointStore.mk (<[original_genesis := g']> m)).
Proof.
  intros Hutxo. unfold check_snapshot.
  unfold get_raw_header, checkpoint_header_source,
    CheckpointStore.get_raw_header.
  cbn [CheckpointStore.headers].
  rewrite (lookup_insert_ne m original_genesis checkpoint_hash g)
    by discriminate.
  rewrite (lookup_insert_ne m original_genesis checkpoint_hash g')
    by discriminate.
  rewrite !lookup_insert_eq, Hutxo.
  destruct (m !! checkpoint_hash) as [checkpoint_header|]; [|done].
  unfold assert_cryptographic_hash_chain_to_genesis.
  rewrite (walk_loop_ignores_target blake2b 1001
             (CheckpointStore.mk (<[original_genesis := g]> m))
             (CheckpointStore.mk (<[original_genesis := g']> m))); [done|].
  intros k Hk.
  unfold get_raw_header, checkpoint_header_source,
    CheckpointStore.get_raw_header.
  cbn [CheckpointStore.headers]. by rewrite !lookup_insert_ne.
Qed.

End OriginalGenesis.

Lemma walker_ignores_target_header_witness :
  assert_cryptographic_hash_chain_to_genesis checkpoint_const_hash
    (CheckpointStore.mk
       (<[original_genesis := forged_original_genesis 0]> checkpoint_only))
    checkpoint_hash original_genesis
  = assert_cryptographic_hash_chain_to_genesis checkpoint_const_hash
      (CheckpointStore.mk
         (<[original_genesis := forged_original_genesis 1]> checkpoint_only))
      checkpoint_hash original_genesis.
Proof.
  apply walker_ignores_target_header. intros k Hk.
  unfold get_raw_header, checkpoint_header_source,
    CheckpointStore.get_raw_header.
  cbn [CheckpointStore.headers].
  rewrite (lookup_insert_ne checkpoint_only original_genesis k
             (forged_original_genesis 0)) by done.
  rewrite (lookup_insert_ne checkpoint_only original_genesis k
             (forged_original_genesis 1)) by done.
  reflexivity.
Defined.

Lemma check_snapshot_original_genesis_unverified_witness :
  utxoCommitment (forged_original_genesis 0)
  = utxoCommitment (forged_original_genesis 1)
  /\ check_snapshot checkpoint_const_hash (forged_original_genesis 0)
       (CheckpointStore.mk
          (<[original_genesis := forged_original_genesis 0]> checkpoint_only))
     = check_snapshot checkpoint_const_hash (forged_original_genesis 0)
         (CheckpointStore.mk
            (<[original_genesis := forged_original_genesis 1]>
               checkpoint_only)).
Proof.
  split; [reflexivity|].
  apply (check_snapshot_original_genesis_unverified checkpoint_const_hash
           (forged_original_genesis 0) checkpoint_only
           (forged_original_genesis 0) (forged_original_genesis 1)).
  reflexivity.
Defined.

(** On the forged sidecar the report is the best one there is, although
    the header stored under the original genesis hash does not hash to
    it. *)
Example forged_original_genesis_run :
  check_snapshot checkpoint_const_hash (forged_original_genesis 0)
    (CheckpointStore.mk
       (<[original_genesis := forged_original_genesis 1]> checkpoint_only))
  = Return (CheckpointChecked false (ChainVerified EmptyUtxoSet))
  /\ header_hash checkpoint_const_hash (forged_original_genesis 1)
     <> Return original_genesis.
Proof. split; [vm_compute; reflexivity | vm_compute; discriminate]. Qed.

(** ** The driver: when it returns True *)

Section DriverResult.

Variable blake2b : nat -> bytes -> bytes -> bytes.
Context {St : Type} `{HeaderSource St} `{TipsSource St}.

Lemma walk_follows_Reached (store : St) (start target : bytes) (n : nat) :
  follows blake2b store target start n target ->
  (n <= 1000)%nat ->
  assert_cryptographic_hash_chain_to_genesis blake2b store start target
  = Reached n.
Proof.
  intros Hchain Hn. unfold assert_cryptographic_hash_chain_to_genesis.
  replace 1001%nat with (n + Datatypes.S (1000 - n))%nat by lia.
  rewrite (walk_loop_follows _ _ _ _ _ _ Hchain) by lia.
  cbn [walk_loop Nat.add]. by rewrite bool_decide_eq_true_2.
Qed.

(** X17: [verify_genesis] returns True exactly when the genesis header
    is in the store and hashes to the genesis hash, its merkle root is
    the digest of the synthetic coinbase transaction, the chain tip
    (first tip, or the selected tip when there are no tips) is not
    empty, at most 1000 verified pruning-point links lead from it to the
    genesis hash, and step 7 raises nothing. *)
Theorem verify_genesis_true_iff (store : St) (checkpoint_data : checkpoint_json)
    (datadir : option string) :
  verify_value (verify_genesis blake2b store checkpoint_data datadir) = true
  <-> exists genesis_header n,
        get_raw_header store genesis_hash = Some genesis_header
        /\ header_hash blake2b genesis_header = Return genesis_hash
        /\ hashMerkleRoot genesis_header
           = blake2b 32 (String.list_byte_of_string "TransactionHash")
               coinbase_preimage
        /\ chain_tip_of (tips store) <> []
        /\ (n <= 1000)%nat
        /\ follows blake2b store genesis_hash (chain_tip_of (tips store)) n
             genesis_hash
        /\ exists p7,
             pre_checkpoint_verification blake2b genesis_header
               checkpoint_data datadir = Return p7.
Proof.
  unfold verify_genesis, chain_tip_of. rewrite genesis_coinbase_digest.
  destruct (tips store) as [tips hst]. cbn [fst snd]. split.
  - destruct (get_raw_header store genesis_hash) as [genesis_header|]; [|done].
    destruct (header_hash blake2b genesis_header) as [h|e] eqn:Hhash; [|done].
    case_bool_decide as Hh; [done|].
    case_bool_decide as Hroot; [done|].
    destruct (match tips with tip :: _ => tip | [] => hst end)
      as [|b chain_tip]; [done|].
    destruct (assert_cryptographic_hash_chain_to_genesis blake2b store
                (b :: chain_tip) genesis_hash) as [i| | | | |] eqn:Hwalk;
      try done.
    destruct (pre_checkpoint_verification blake2b genesis_header
                checkpoint_data datadir) as [p7|e] eqn:Hp7; [|done].
    intros _.
    apply walk_loop_Reached in Hwalk as (j & -> & Hn & Hchain); [|lia].
    exists genesis_header, j. split; [done|]. split.
    { destruct (decide (h = genesis_hash)) as [->|Hne];
        [done|by destruct Hh]. }
    split.
    { destruct (decide (blake2b 32
                          (String.list_byte_of_string "TransactionHash")
                          coinbase_preimage = hashMerkleRoot genesis_header));
        [done|by destruct Hroot]. }
    split; [done|]. split; [lia|]. split; [done|]. by exists p7.
  - intros (genesis_header & n & Hget & Hhash & Hroot & Htip & Hn & Hchain
            & p7 & Hp7).
    rewrite Hget, Hhash.
    rewrite bool_decide_eq_false_2 by (intros Hc; by apply Hc).
    rewrite bool_decide_eq_false_2 by (intros Hc; by apply Hc).
    destruct (match tips with tip :: _ => tip | [] => hst end)
      as [|b chain_tip]; [done|].
    rewrite (walk_follows_Reached _ _ _ n) by done.
    by rewrite Hp7.
Qed.

(** X18: the [--pre-checkpoint-datadir] argument changes what is
    printed and never the result. *)
Theorem verify_genesis_datadir_irrelevant (store : St)
    (checkpoint_data : checkpoint_json) (datadir datadir' : option string) :
  verify_value (verify_genesis blake2b store checkpoint_data datadir)
  = verify_value (verify_genesis blake2b store checkpoint_data datadir').
Proof.
  unfold verify_genesis.
  destruct (tips store) as [tips hst].
  destruct (get_raw_header store genesis_hash) as [genesis_header|]; [|done].
  destruct (header_hash blake2b genesis_header) as [h|e]; [|done].
  case_bool_decide; [done|].
  destruct (transaction_hash blake2b genesis_coinbase_tx) as [c|e]; [|done].
  case_bool_decide; [done|].
  destruct (match tips with tip :: _ => tip | [] => hst end)
    as [|b chain_tip]; [done|].
  destruct (assert_cryptographic_hash_chain_to_genesis blake2b store
              (b :: chain_tip) genesis_hash); try done.
  destruct checkpoint_data as [|e|headers_chain]; cbn [pre_checkpoint_verification].
  - by destruct datadir as [[|? ?]|], datadir' as [[|? ?]|].
  - done.
  - done.
Qed.

(** X19: a sidecar file that exists and cannot be loaded makes the whole
    verification fail, whatever the node database holds. *)
Theorem verify_genesis_unreadable_sidecar (store : St) (e : exn)
    (datadir : option string) :
  verify_value (verify_genesis blake2b store (JsonUnreadable e) datadir)
  = false.
Proof.
  unfold verify_genesis.
  destruct (tips store) as [tips hst].
  destruct (get_raw_header store genesis_hash) as [genesis_header|]; [|done].
  destruct (header_hash blake2b genesis_header) as [h|e']; [|done].
  case_bool_decide; [done|].
  destruct (transaction_hash blake2b genesis_coinbase_tx) as [c|e']; [|done].
  case_bool_decide; [done|].
  destruct (match tips with tip :: _ => tip | [] => hst end)
    as [|b chain_tip]; [done|].
  by destruct (assert_cryptographic_hash_chain_to_genesis blake2b store
                 (b :: chain_tip) genesis_hash).
Qed.

End DriverResult.

(** ** The driver on the Rust store *)

Lemma first32_nil (value : bytes) : Store.first32 value = [] -> value = [].
Proof.
  unfold Store.first32.
  destruct (32 <=? length value)%nat eqn:Hlen; [|done].
  apply Nat.leb_le in Hlen. intros Hslice.
  apply (f_equal length) in Hslice.
  rewrite slice_length in Hslice by (simpl; lia). simpl in Hslice. lia.
Qed.

(** The start of the walk is empty only when the selected tip record is
    stored empty (or the database is not open). *)
Lemma rust_chain_tip_nil (self : Store.t) :
  chain_tip_of (fst (Store.tips self)) = [] ->
  Store.usable_db self = None
  \/ exists d : gmap bytes bytes,
       Store.usable_db self = Some d
       /\ d !! Store._build_key DatabaseStorePrefixes.HEADERS_SELECTED_TIP []
          = Some []
       /\ fst (fst (Store.tips self)) = [].
Proof.
  unfold Store.tips, chain_tip_of.
  destruct (Store.usable_db self) as [d|]; [|by left].
  intros Htip. right. exists d. split; [done|]. cbv zeta in *.
  set (hst_key := Store._build_key DatabaseStorePrefixes.HEADERS_SELECTED_TIP [])
    in *.
  set (hst_hash := match d !! hst_key with
                   | Some hst_bytes => Store.first32 hst_bytes
                   | None => Store.zero_hash
                   end) in *.
  assert (Hhst : hst_hash = [] -> d !! hst_key = Some []).
  { subst hst_hash. destruct (d !! hst_key) as [hst_bytes|]; [|done].
    intros Hnil. by rewrite (first32_nil _ Hnil). }
  destruct (d !! Store._build_key DatabaseStorePrefixes.TIPS [])
    as [tips_bytes|]; [|by split; [apply Hhst|]].
  destruct (8 <=? length tips_bytes)%nat; [|by split; [apply Hhst|]].
  destruct (struct_unpack Q (slice tips_bytes 0 8)) as [tips_count|e].
  - cbn [fst snd] in *.
    pose proof (read_tips_widths tips_bytes 8 (Z.to_nat tips_count)) as Hw.
    destruct (Store.read_tips tips_bytes 8 (Z.to_nat tips_count))
      as [|tip rest]; [by split; [apply Hhst|]|].
    apply Forall_cons in Hw as [Hlen _]. by rewrite Htip in Hlen.
  - cbn [fst snd] in *.
    destruct (length hst_hash =? 32)%nat eqn:Hlen;
      [|by split; [apply Hhst|]].
    apply Nat.eqb_eq in Hlen. by rewrite Htip in Hlen.
Qed.

Section RustStoreExits.

Variable blake2b : nat -> bytes -> bytes -> bytes.

(** X20: when the node database could not be opened, [Store(datadir)]
    still succeeds and the verification fails at step 3 with the
    genesis-header-not-found exit. *)
Theorem verify_genesis_database_unavailable (self : Store.t)
    (checkpoint_data : checkpoint_json) (datadir : option string) :
  Store.usable_db self = None ->
  verify_genesis blake2b self checkpoint_data datadir = GenesisHeaderNotFound.
Proof.
  intros Hdb. unfold verify_genesis.
  unfold get_raw_header at 1, store_header_source, Store.get_raw_header.
  rewrite Hdb. by destruct (tips self).
Qed.

(** X21: with the Rust store the no-tips exit is taken only when the
    database is open, holds no usable tip and its selected tip record is
    stored as the empty byte string: a missing selected tip record is
    replaced by the zero hash, from which the walk is started. *)
Theorem verify_genesis_rust_no_tips (self : Store.t)
    (checkpoint_data : checkpoint_json) (datadir : option string) :
  verify_genesis blake2b self checkpoint_data datadir = NoTips ->
  exists d : gmap bytes bytes,
    Store.usable_db self = Some d
    /\ d !! Store._build_key DatabaseStorePrefixes.HEADERS_SELECTED_TIP []
       = Some []
    /\ fst (tips self) = [].
Proof.
  intros Hexit.
  assert (Htip : chain_tip_of (fst (Store.tips self)) = []
                 /\ Store.usable_db self <> None).
  { revert Hexit. unfold verify_genesis, chain_tip_of.
    unfold tips, store_tips_source.
    destruct (fst (Store.tips self)) as [tips hst]. cbn [fst snd].
    unfold get_raw_header at 1, store_header_source, Store.get_raw_header.
    destruct (Store.usable_db self) as [d|]; [|done].
    destruct (fst _) as [genesis_header|]; [|done].
    destruct (header_hash blake2b genesis_header) as [h|e]; [|done].
    case_bool_decide; [done|].
    destruct (transaction_hash blake2b genesis_coinbase_tx) as [c|e]; [|done].
    case_bool_decide; [done|].
    destruct (match tips with tip :: _ => tip | [] => hst end)
      as [|b chain_tip]; [done|].
    destruct (assert_cryptographic_hash_chain_to_genesis blake2b self
                (b :: chain_tip) genesis_hash); try done.
    by destruct (pre_checkpoint_verification blake2b genesis_header
                   checkpoint_data datadir). }
  destruct Htip as [Htip Hdb].
  destruct (rust_chain_tip_nil self Htip) as [Hnone|Hsome]; [done|].
  exact Hsome.
Qed.

End RustStoreExits.

Lemma verify_genesis_database_unavailable_witness :
  Store.usable_db (Store.mk false None ∅) = None
  /\ verify_genesis genesis_const_hash (Store.mk false None ∅) JsonAbsent None
     = GenesisHeaderNotFound.
Proof.
  split; [reflexivity|].
  apply (verify_genesis_database_unavailable genesis_const_hash
           (Store.mk false None ∅) JsonAbsent None).
  reflexivity.
Defined.

Lemma verify_genesis_rust_no_tips_witness :
  exists d : gmap bytes bytes,
    Store.usable_db (opened_store db_empty_selected_tip) = Some d
    /\ d !! Store._build_key DatabaseStorePrefixes.HEADERS_SELECTED_TIP []
       = Some []
    /\ fst (tips (opened_store db_empty_selected_tip)) = [].
Proof.
  apply (verify_genesis_rust_no_tips genesis_const_hash
           (opened_store db_empty_selected_tip) JsonAbsent None).
  vm_compute. reflexivity.
Defined.

(** ** What the driver reads from the node *)

Section DriverInputs.

Variable blake2b : nat -> bytes -> bytes -> bytes.
Context {St : Type} `{HeaderSource St} `{TipsSource St}.

(** X22: [verify_genesis] depends on the node's store only through its
    headers and the start of the walk (the first tip, or the selected
    tip when there are no tips): further tips, and the selected tip when
    there is a tip, are never verified. *)
Theorem verify_genesis_first_tip_only (store store' : St)
    (checkpoint_data : checkpoint_json) (datadir : option string) :
  (forall k, get_raw_header store k = get_raw_header store' k) ->
  chain_tip_of (tips store) = chain_tip_of (tips store') ->
  verify_genesis blake2b store checkpoint_data datadir
  = verify_genesis blake2b store' checkpoint_data datadir.
Proof.
  intros Hheaders. unfold verify_genesis, chain_tip_of.
  destruct (tips store) as [tips1 hst], (tips store') as [tips' hst'].
  cbn [fst snd]. intros ->. rewrite (Hheaders genesis_hash).
  destruct (get_raw_header store' genesis_hash) as [genesis_header|]; [|done].
  destruct (header_hash blake2b genesis_header) as [h|e]; [|done].
  case_bool_decide; [done|].
  destruct (transaction_hash blake2b genesis_coinbase_tx) as [c|e]; [|done].
  case_bool_decide; [done|].
  destruct (match tips' with tip :: _ => tip | [] => hst' end)
    as [|b chain_tip]; [done|].
  unfold assert_cryptographic_hash_chain_to_genesis.
  by rewrite (walk_loop_ignores_target blake2b 1001 store store'
                (b :: chain_tip) genesis_hash 0).
Qed.

End DriverInputs.

Lemma verify_genesis_first_tip_only_witness :
  verify_genesis genesis_const_hash
    (opened_store (db_genesis_only (header_bytes_with_merkle_root genesis_hash)))
    JsonAbsent None
  = verify_genesis genesis_const_hash
      (opened_store
         (db_genesis_more_tips (header_bytes_with_merkle_root genesis_hash)))
      JsonAbsent None.
Proof.
  apply (verify_genesis_first_tip_only genesis_const_hash).
  - intros k. unfold get_raw_header, store_header_source, Store.get_raw_header.
    unfold opened_store, Store.usable_db, db_genesis_more_tips.
    cbn [Store.db_available Store.db Store._build_key fold_left app].
    rewrite (lookup_insert_ne _ [DatabaseStorePrefixes.HEADERS_SELECTED_TIP]
               (DatabaseStorePrefixes.HEADERS :: k)) by discriminate.
    rewrite (lookup_insert_ne _ [DatabaseStorePrefixes.TIPS]
               (DatabaseStorePrefixes.HEADERS :: k)) by discriminate.
    reflexivity.
  - vm_compute. reflexivity.
Defined.

(** ** The compact difficulty target *)



(** ** The command line *)

Lemma substring_all (s : string) : String.substring 0 (String.length s) s = s.
Proof. induction s as [|c s IH]; [done|]. cbn. by rewrite IH. Qed.

Lemma substring_append (p s : string) :
  String.substring (String.length p) (String.length s) (p ++ s) = s.
Proof.
  induction p as [|c p IH]; [apply substring_all|]. cbn. exact IH.
Qed.

Lemma length_append (p s : string) :
  String.length (p ++ s) = (String.length p + String.length s)%nat.
Proof.
  induction p as [|c p IH]; [done|].
  change (Datatypes.S (String.length (p ++ s))
          = Datatypes.S (String.length p + String.length s)).
  by rewrite IH.
Qed.

Lemma append_assoc (p q s : string) :
  (p ++ q ++ s)%string = ((p ++ q) ++ s)%string.
Proof.
  induction p as [|c p IH]; [done|].
  change (String c (p ++ q ++ s) = String c ((p ++ q) ++ s)).
  by rewrite IH.
Qed.

Lemma endswith_append (p s : string) : endswith (p ++ s) s = true.
Proof.
  unfold endswith. cbv zeta. rewrite length_append.
  replace (String.length p + String.length s - String.length s)%nat
    with (String.length p) by lia.
  rewrite substring_append, String.eqb_refl.
  rewrite andb_true_r. apply Nat.leb_le. lia.
Qed.

Lemma join_consensus_dir (datadir : string) :
  endswith (os_path_join datadir ["consensus"; "consensus-003"]%string)
    "consensus-003" = true.
Proof.
  unfold os_path_join. cbn [fold_left].
  set (path := join_component datadir "consensus").
  unfold join_component. cbn [startswith String.prefix].
  destruct (Ascii.ascii_dec _ _) as [Heq|_]; [discriminate Heq|].
  destruct (String.eqb path "" || endswith path "/").
  - apply endswith_append.
  - rewrite append_assoc. apply endswith_append.
Qed.

Section MainFacts.

Variable parse_args : list string -> parse_outcome.
Variable expanduser : string -> string.
Variable path_exists : string -> bool.
Variable run_verify_genesis :
  node_type -> string -> option string -> bool -> bool.

Abbreviation run_main :=
  (main parse_args expanduser path_exists run_verify_genesis).

(** X24: [main] exits with status 0, 1 or 2; with 2 exactly when
    argparse rejects the command line; and with 0 only when argparse
    printed the help, or after [verify_genesis] returned True on a
    directory that exists and, for a Rust node, ends with consensus-003:
    the expanded [--datadir] itself or its consensus/consensus-003
    subdirectory. *)
Theorem main_exit_status (argv : list string) :
  (run_main argv = 0 \/ run_main argv = 1 \/ run_main argv = 2)
  /\ (run_main argv = 2 <-> parse_args argv = UsageError)
  /\ (run_main argv = 0 ->
      parse_args argv = HelpPrinted
      \/ exists a datadir,
           parse_args argv = ParsedArgs a
           /\ path_exists datadir = true
           /\ run_verify_genesis (args_node_type a) datadir
                (args_pre_checkpoint_datadir a) (args_verbose a) = true
           /\ (args_node_type a = rust ->
               endswith datadir "consensus-003" = true)
           /\ (datadir = expanduser (args_datadir a)
               \/ datadir
                  = os_path_join (expanduser (args_datadir a))
                      ["consensus"; "consensus-003"]%string)).
Proof.
  unfold main.
  destruct (parse_args argv) as [| |a] eqn:Hparse.
  { split; [by right; right|]. split; [done|]. done. }
  { split; [by left|]. split; [done|]. by left. }
  unfold resolve_datadir. cbv zeta.
  set (datadir := expanduser (args_datadir a)).
  assert (Hexit : forall b : bool,
            exit_code b = 2 <-> ParsedArgs a = UsageError)
    by (by intros []).
  assert (Hone : (1 = 2 <-> ParsedArgs a = UsageError)) by done.
  destruct (path_exists datadir) eqn:Hexists; cbn [negb];
    [|by split; [right; left|]].
  destruct (args_node_type a) eqn:Hnode.
  - destruct (endswith datadir "consensus-003") eqn:Hends; cbn [negb].
    + destruct (run_verify_genesis rust datadir _ _) eqn:Hrun; cbn [exit_code].
      * split; [by left|]. split; [done|]. intros _. right.
        exists a, datadir. rewrite Hnode.
        split; [done|]. split; [done|]. split; [done|]. split; [done|by left].
      * by split; [right; left|].
    + destruct (path_exists (os_path_join datadir _)) eqn:Hsub;
        [|by split; [right; left|]].
      destruct (run_verify_genesis rust _ _ _) eqn:Hrun; cbn [exit_code].
      * split; [by left|]. split; [done|]. intros _. right.
        exists a, (os_path_join datadir ["consensus"; "consensus-003"]%string).
        rewrite Hnode.
        split; [done|]. split; [done|]. split; [done|].
        split; [intros _; apply join_consensus_dir|by right].
      * by split; [right; left|].
  - destruct (run_verify_genesis go datadir _ _) eqn:Hrun; cbn [exit_code].
    + split; [by left|]. split; [done|]. intros _. right.
      exists a, datadir. rewrite Hnode.
      split; [done|]. split; [done|]. split; [done|]. split; [done|by left].
    + by split; [right; left|].
Qed.

End MainFacts.

(** On the sample file system the subdirectory is the one verified; the
    help and a rejected command line end the run before anything is
    verified. *)
Example main_run :
  resolve_datadir (fun path => path) sample_exists sample_args
  = Some "/node/datadir/consensus/consensus-003"%string
  /\ main sample_parse_args (fun path => path) sample_exists
       (fun _ _ _ _ => true) sample_argv = 0
  /\ main sample_parse_args (fun path => path) sample_exists
       (fun _ _ _ _ => false) ["--help"%string] = 0
  /\ main sample_parse_args (fun path => path) sample_exists
       (fun _ _ _ _ => true) ["--node-type"%string; "rust"%string] = 2.
Proof. repeat split; vm_compute; reflexivity. Qed.

Lemma main_exit_status_witness :
  sample_parse_args sample_argv = HelpPrinted
  \/ exists a datadir,
       sample_parse_args sample_argv = ParsedArgs a
       /\ sample_exists datadir = true
       /\ (fun (_ : node_type) (_ : string) (_ : option string) (_ : bool)
             => true)
            (args_node_type a) datadir
            (args_pre_checkpoint_datadir a) (args_verbose a)
          = true
       /\ (args_node_type a = rust ->
           endswith datadir "consensus-003" = true)
       /\ (datadir = args_datadir a
           \/ datadir
              = os_path_join (args_datadir a)
                  ["consensus"; "consensus-003"]%string).
Proof.
  apply (main_exit_status sample_parse_args (fun path => path) sample_exists
           (fun _ _ _ _ => true) sample_argv).
  vm_compute. reflexivity.
Defined.

Lemma verify_genesis_true_iff_witness :
  exists genesis_header n,
    get_raw_header
      (opened_store
         (db_genesis_only (header_bytes_with_merkle_root genesis_hash)))
      genesis_hash = Some genesis_header
    /\ header_hash genesis_const_hash genesis_header = Return genesis_hash
    /\ hashMerkleRoot genesis_header
       = genesis_const_hash 32 (String.list_byte_of_string "TransactionHash")
           coinbase_preimage
    /\ chain_tip_of
         (tips (opened_store
                  (db_genesis_only
                     (header_bytes_with_merkle_root genesis_hash)))) <> []
    /\ (n <= 1000)%nat
    /\ follows genesis_const_hash
         (opened_store
            (db_genesis_only (header_bytes_with_merkle_root genesis_hash)))
         genesis_hash
         (chain_tip_of
            (tips (opened_store
                     (db_genesis_only
                        (header_bytes_with_merkle_root genesis_hash)))))
         n genesis_hash
    /\ exists p7,
         pre_checkpoint_verification genesis_const_hash genesis_header
           JsonAbsent None = Return p7.
Proof.
  apply (proj1 (verify_genesis_true_iff genesis_const_hash
                  (opened_store
                     (db_genesis_only
                        (header_bytes_with_merkle_root genesis_hash)))
                  JsonAbsent None)).
  vm_compute. reflexivity.
Defined.
